(** * virtual1403: renderer, profiles, server configuration, quota and dispatch

    A shallow embedding of the parts of virtual1403 that its specification
    makes claims about:

    - [GoStrings]: the Go notions the sources rely on ([int], [len],
      slicing, [strings.ToUpper], [strings.ToLower]);
    - [Vprinter]: [vprinter/1403.go] (the [virtual1403] job);
    - [Profile]: [NewProfile];
    - [Config]: [readConfig];
    - [Accounts]: [createAdmin];
    - [Quota]: the Quota Tracker and the render step of the pipeline;
    - [Dispatcher]: the bounded pool of render workers. *)

From Stdlib Require Import ZArith List String Ascii Bool Lia Floats.
From stdpp Require Import base list.
Import ListNotations.

Open Scope Z_scope.

(* ===================================================================== *)
(** * Go values *)
(* ===================================================================== *)

Module GoStrings.

(** A Go [string] is a sequence of bytes; [String.string] is a sequence of
    8-bit [ascii] values, so one [ascii] is one byte of the Go string and
    [len(s)] is [String.length]. *)

Definition len (s : string) : Z := Z.of_nat (String.length s).

(** [s[lo:hi]]; the sources only slice after checking [hi <= len(s)]. *)
Definition slice (s : string) (lo hi : Z) : string :=
  substring (Z.to_nat lo) (Z.to_nat (hi - lo)) s.

(** Go's [int] on the 64-bit targets the program is built for: arithmetic
    wraps around modulo 2^64 into [-2^63, 2^63). *)
Definition int_wrap (z : Z) : Z :=
  (z + 2 ^ 63) mod 2 ^ 64 - 2 ^ 63.

(** [float64(n)] for an [int] [n]. *)
Definition float64_of_int (z : Z) : float :=
  if z =? - 2 ^ 63 then (-9223372036854775808)%float
  else if z <? 0 then PrimFloat.opp (PrimFloat.of_uint63 (Uint63.of_Z (- z)))
  else PrimFloat.of_uint63 (Uint63.of_Z z).

(** [utf8.RuneSelf]: bytes below it are single-byte runes. *)
Definition RuneSelf : nat := 128.

Definition byte_lt (c : ascii) (n : nat) : bool := Nat.ltb (nat_of_ascii c) n.

Definition isLowerByte (c : ascii) : bool :=
  Nat.leb 97 (nat_of_ascii c) && Nat.leb (nat_of_ascii c) 122.

Definition isUpperByte (c : ascii) : bool :=
  Nat.leb 65 (nat_of_ascii c) && Nat.leb (nat_of_ascii c) 90.

(** [c -= 'a' - 'A'] and [c += 'a' - 'A'] on the letters. *)
Definition upperByte (c : ascii) : ascii :=
  if isLowerByte c then ascii_of_nat (nat_of_ascii c - 32) else c.

Definition lowerByte (c : ascii) : ascii :=
  if isUpperByte c then ascii_of_nat (nat_of_ascii c + 32) else c.

Fixpoint all_bytes (p : ascii -> bool) (s : string) : bool :=
  match s with
  | EmptyString => true
  | String c r => p c && all_bytes p r
  end.

Fixpoint any_byte (p : ascii -> bool) (s : string) : bool :=
  match s with
  | EmptyString => false
  | String c r => p c || any_byte p r
  end.

Fixpoint map_bytes (f : ascii -> ascii) (s : string) : string :=
  match s with
  | EmptyString => EmptyString
  | String c r => String (f c) (map_bytes f r)
  end.

Definition isASCII (s : string) : bool := all_bytes (fun c => byte_lt c RuneSelf) s.

(** The case mappings of strings that hold a byte at or above [RuneSelf]:
    [strings.Map(unicode.ToUpper, s)] and [strings.Map(unicode.ToLower, s)].
    They depend on the Unicode tables of the Go runtime, which are not
    part of the program; they are an interface here. *)
Class UnicodeCase := {
  mapToUpper : string -> string;
  mapToLower : string -> string
}.

(** [strings.ToUpper]: ASCII-only strings are mapped bytewise (and returned
    as they are when they hold no lower-case letter); anything else goes
    through the Unicode tables. *)
Definition ToUpper `{UnicodeCase} (s : string) : string :=
  if isASCII s then
    if any_byte isLowerByte s then map_bytes upperByte s else s
  else mapToUpper s.

(** [strings.ToLower], the same way. *)
Definition ToLower `{UnicodeCase} (s : string) : string :=
  if isASCII s then
    if any_byte isUpperByte s then map_bytes lowerByte s else s
  else mapToLower s.

(** An instance to evaluate with: strings with non-ASCII bytes are left
    alone. Only used at concrete ASCII inputs. *)
Definition asciiOnlyCase : UnicodeCase :=
  {| mapToUpper := fun s => s; mapToLower := fun s => s |}.

End GoStrings.

(* ===================================================================== *)
(** * vprinter/1403.go *)
(* ===================================================================== *)

Module Vprinter.
Import GoStrings.

Definition maxLinesPerPage : Z := 66.
Definition maxLineCharacters : Z := 132.

(** Page size, in points. *)
Definition v1403W : Z := 1071.
Definition v1403H : Z := 792.

#[warnings="-inexact-float"]
Definition v1430FontSize : float := 11.4%float.

(** The calls the job makes on its [gofpdf.Fpdf]. The PDF library is not
    part of the program: the document is modelled by the calls made on it,
    the most recent call first. [AddPage] invokes the header function set
    with [SetHeaderFunc] (here always [drawBackground], which draws the
    green-bar form); that invocation is part of [AddPage] and has no entry
    of its own. *)
Inductive PdfCall : Type :=
| NewCustom (unit : string) (wd ht : Z)
| SetMargins (left top right : float)
| SetAutoPageBreak (auto : bool) (margin : float)
| AddUTF8FontFromBytes (family style : string) (font : list Byte.byte)
| SetFont (family style : string) (size : float)
| SetHeaderFunc
| AddPage
| SetXY (x y : float)
| CellFormat (w h : float) (txt : string) (border : string) (ln : Z)
    (align : string) (fill : bool) (link : Z) (linkStr : string).

Definition Fpdf := list PdfCall.

(** [pdf.GetStringWidth], a query that depends on the metrics of the
    loaded font. *)
Class FontMetrics := { GetStringWidth : Fpdf -> string -> float }.

(** Our implementation of the Job interface simulating an IBM 1403. *)
Record virtual1403 : Type := {
  pdf : Fpdf;
  font : list Byte.byte;
  curLine : Z;
  leftMargin : float
}.

Fixpoint spaces (n : nat) : string :=
  match n with
  | O => EmptyString
  | S k => String " " (spaces k)
  end.

Definition determineLineWidth `{FontMetrics} (p : Fpdf) : float :=
  GetStringWidth p (spaces 132).

Definition NewPage (job : virtual1403) : virtual1403 :=
  {| pdf := SetFont "userfont" "" v1430FontSize :: AddPage :: pdf job;
     font := font job;
     (* simulating a 1403 with form control that skips the first 5
        physically printable lines *)
     curLine := 5;
     leftMargin := leftMargin job |}.

(** [New1403] never returns an error: the result is the job alone. The
    constant expression [v1403W/2] is an integer division. *)
Definition New1403 `{FontMetrics} (f : list Byte.byte) : virtual1403 :=
  let p0 : Fpdf :=
    [ AddUTF8FontFromBytes "userfont" "" f;
      SetAutoPageBreak false 0%float;
      SetMargins 0%float 0%float 0%float;
      NewCustom "pt" v1403W v1403H ] in
  let p1 := SetFont "userfont" "" v1430FontSize :: p0 in
  let lm := PrimFloat.sub (float64_of_int (v1403W / 2))
              (PrimFloat.div (determineLineWidth p1) 2%float) in
  NewPage {| pdf := SetHeaderFunc :: p1; font := f; curLine := 0;
             leftMargin := lm |}.

(** The text [AddLine] hands to [CellFormat] for the line [s]. *)
Definition lineText `{UnicodeCase} (s : string) : string :=
  let s := if maxLineCharacters <? len s then slice s 0 maxLineCharacters else s in
  (* 1403 only had capital letters *)
  ToUpper s.

Definition AddLine `{UnicodeCase} (job : virtual1403) (s : string) : virtual1403 :=
  let job := if maxLinesPerPage <=? curLine job then NewPage job else job in
  let s := lineText s in
  let y := PrimFloat.add (float64_of_int (int_wrap (curLine job * 12))) 0.25%float in
  {| pdf := CellFormat 0%float 12%float s "" 0 "LM" false 0 ""
            :: SetXY (leftMargin job) y :: pdf job;
     font := font job;
     curLine := int_wrap (curLine job + 1);
     leftMargin := leftMargin job |}.

(** The calls a client of the Job interface can make before [EndJob]. *)
Inductive JobCall : Type :=
| CallAddLine (s : string)
| CallNewPage.

Definition call `{UnicodeCase} (job : virtual1403) (c : JobCall) : virtual1403 :=
  match c with
  | CallAddLine s => AddLine job s
  | CallNewPage => NewPage job
  end.

Definition calls `{UnicodeCase} (job : virtual1403) (cs : list JobCall) : virtual1403 :=
  fold_left call cs job.

(** The pages of a document with the texts drawn on each by [CellFormat],
    the current page first and on each page the last line first. A
    [CellFormat] before the first [AddPage] has no page to go to. *)
Fixpoint pages (p : Fpdf) : list (list string) :=
  match p with
  | [] => []
  | AddPage :: older => [] :: pages older
  | CellFormat _ _ txt _ _ _ _ _ _ :: older =>
      match pages older with
      | pg :: pgs => (txt :: pg) :: pgs
      | [] => []
      end
  | _ :: older => pages older
  end.

(** The text of the last [CellFormat], if any. *)
Fixpoint lastDrawn (p : Fpdf) : option string :=
  match p with
  | [] => None
  | CellFormat _ _ txt _ _ _ _ _ _ :: _ => Some txt
  | _ :: older => lastDrawn older
  end.

(** Truncation as the specification words it: the first [n] bytes of
    [s], and all of [s] when it is shorter. *)
Fixpoint firstBytes (n : nat) (s : string) : string :=
  match n, s with
  | S k, String c r => String c (firstBytes k r)
  | _, _ => EmptyString
  end.

(** ** Go values on small inputs *)

Lemma int_wrap_small (z : Z) : - 2 ^ 63 <= z < 2 ^ 63 -> int_wrap z = z.
Proof.
  intros Hz. unfold int_wrap.
  rewrite Z.mod_small by lia. lia.
Qed.






Lemma map_bytes_firstBytes (f : ascii -> ascii) (n : nat) (s : string) :
  map_bytes f (firstBytes n s) = firstBytes n (map_bytes f s).
Proof.
  revert n. induction s as [|c r IH]; intros [|k]; simpl; try reflexivity.
  now rewrite IH.
Qed.

Lemma all_bytes_firstBytes (p : ascii -> bool) (n : nat) (s : string) :
  all_bytes p s = true -> all_bytes p (firstBytes n s) = true.
Proof.
  revert n. induction s as [|c r IH]; intros [|k]; simpl; try reflexivity.
  intros [Hc Hr]%andb_prop. rewrite Hc. simpl. now apply IH.
Qed.

Lemma isASCII_firstBytes (n : nat) (s : string) :
  isASCII s = true -> isASCII (firstBytes n s) = true.
Proof. apply all_bytes_firstBytes. Qed.




(** ** The page invariant *)

(** What holds of a job between calls: the line counter is within the
    page, the current page holds one text line per counted line past the
    skipped five, and the finished pages are within the limit. *)
Definition job_inv (job : virtual1403) : Prop :=
  5 <= curLine job <= maxLinesPerPage /\
  exists pg pgs,
    pages (pdf job) = pg :: pgs /\
    Z.of_nat (length pg) = curLine job - 5 /\
    Forall (fun p => (length p <= 61)%nat) pgs.

Lemma NewPage_inv (job : virtual1403) :
  Forall (fun p => (length p <= 61)%nat) (pages (pdf job)) ->
  job_inv (NewPage job).
Proof.
  intros Hall. unfold job_inv, maxLinesPerPage. simpl. split; [lia|].
  exists [], (pages (pdf job)). auto.
Qed.

Lemma job_inv_pages (job : virtual1403) :
  job_inv job -> Forall (fun p => (length p <= 61)%nat) (pages (pdf job)).
Proof.
  unfold maxLinesPerPage. intros [Hc (pg & pgs & Hp & Hlen & Hall)].
  unfold maxLinesPerPage in Hc.
  rewrite Hp. constructor; [lia | assumption].
Qed.

Lemma New1403_inv `{FontMetrics} (f : list Byte.byte) : job_inv (New1403 f).
Proof. unfold New1403. apply NewPage_inv. simpl. constructor. Qed.

Lemma AddLine_inv `{UnicodeCase} (job : virtual1403) (s : string) :
  job_inv job ->
  job_inv (AddLine job s) /\
  exists pg pgs, pages (pdf (AddLine job s)) = (lineText s :: pg) :: pgs.
Proof.
  intros Hinv. unfold AddLine.
  set (job' := if maxLinesPerPage <=? curLine job then NewPage job else job).
  assert (Hinv' : job_inv job' /\ curLine job' < maxLinesPerPage).
  { subst job'. destruct (maxLinesPerPage <=? curLine job) eqn:Hfull.
    - split; [apply NewPage_inv, job_inv_pages, Hinv|].
      unfold maxLinesPerPage. simpl. lia.
    - apply Z.leb_gt in Hfull. auto. }
  clearbody job'. destruct Hinv' as [[Hc (pg & pgs & Hp & Hlen & Hall)] Hlt].
  unfold maxLinesPerPage in *.
  split.
  - unfold job_inv, maxLinesPerPage. simpl.
    rewrite int_wrap_small by lia. split; [lia|].
    rewrite Hp. exists (lineText s :: pg), pgs.
    repeat split; [|assumption]. simpl length. lia.
  - simpl. rewrite Hp. eauto.
Qed.

Lemma calls_inv `{UnicodeCase} (cs : list JobCall) (job : virtual1403) :
  job_inv job -> job_inv (calls job cs).
Proof.
  revert job. induction cs as [|c cs IH]; intros job Hinv; [exact Hinv|].
  apply IH. destruct c as [s|]; simpl.
  - now apply AddLine_inv.
  - apply NewPage_inv, job_inv_pages, Hinv.
Qed.

(** ** Bytes and characters *)






Fixpoint copies (n : nat) (s : string) : string :=
  match n with
  | O => EmptyString
  | S k => (s ++ copies k s)%string
  end.






(** An ASCII line of 140 bytes is drawn as its first 132 in capitals. *)
Example long_ascii_line_is_cut_and_folded :
  lineText (H := asciiOnlyCase) (copies 14 "Payroll 01"%string)
  = (copies 13 "PAYROLL 01" ++ "PA")%string.
Proof. vm_compute. reflexivity. Qed.


(** A full page at work: 61 lines fill the first page (the counter ends
    at 66), and the 62nd line opens the second page. *)
Example sixty_two_lines :
  let job := calls (H := asciiOnlyCase)
               (New1403 (H := {| GetStringWidth := fun _ _ => 950.5%float |}) [])
               (repeat (CallAddLine "hello") 61) in
  curLine job = 66 /\
  map (@length string) (pages (pdf job)) = [61%nat] /\
  map (@length string) (pages (pdf (AddLine (H := asciiOnlyCase) job "world")))
    = [1%nat; 61%nat] /\
  lastDrawn (pdf (AddLine (H := asciiOnlyCase) job "world")) = Some "WORLD"%string.
Proof. vm_compute. repeat split. Qed.

(** ** The document as a whole *)

(** The lines given to [AddLine], in call order. *)
Fixpoint addedLines (cs : list JobCall) : list string :=
  match cs with
  | [] => []
  | CallAddLine s :: rest => s :: addedLines rest
  | CallNewPage :: rest => addedLines rest
  end.

(** The texts of a document in reading order: the pages from the first
    to the current one, each from its top line down. *)
Definition printedTexts (p : Fpdf) : list string :=
  List.concat (List.rev (List.map (@List.rev string) (pages p))).

(** The number of text lines on each page, the current page first. *)
Definition pageSizes (p : Fpdf) : list nat :=
  List.map (@length string) (pages p).

(** The vertical position [AddLine] draws at when the counter is [line]. *)
Definition lineY (line : Z) : float :=
  PrimFloat.add (float64_of_int (line * 12)) 0.25%float.

(** The cells of a document with the position each was drawn at, page by
    page as [pages] gives them. A cell is placed by the [SetXY] made just
    before it. *)
Fixpoint placed (p : Fpdf) : list (list (float * float * string)) :=
  match p with
  | [] => []
  | AddPage :: older => [] :: placed older
  | CellFormat _ _ txt _ _ _ _ _ _ :: ((SetXY x y :: _) as older) =>
      match placed older with
      | pg :: pgs => ((x, y, txt) :: pg) :: pgs
      | [] => []
      end
  | _ :: older => placed older
  end.

(** A page of texts (last line first) laid out from the sixth printable
    line down, at the horizontal position [x]. *)
Fixpoint layout (x : float) (texts : list string) : list (float * float * string) :=
  match texts with
  | [] => []
  | txt :: above =>
      (x, lineY (5 + Z.of_nat (length above)), txt) :: layout x above
  end.

(** The position is on the page: between the sixth line and the last. *)
Definition onForm (c : float * float * string) : bool :=
  PrimFloat.leb 60.25%float (snd (fst c)) && PrimFloat.leb (snd (fst c)) 780.25%float.

Lemma printedTexts_cons (pg : list string) (pgs : list (list string)) :
  List.concat (List.rev (List.map (@List.rev string) (pg :: pgs)))
  = List.concat (List.rev (List.map (@List.rev string) pgs)) ++ List.rev pg.
Proof.
  simpl. rewrite List.concat_app. simpl. now rewrite List.app_nil_r.
Qed.

Lemma printedTexts_NewPage (job : virtual1403) :
  printedTexts (pdf (NewPage job)) = printedTexts (pdf job).
Proof.
  unfold printedTexts. simpl pages. rewrite printedTexts_cons.
  simpl. now rewrite List.app_nil_r.
Qed.

Lemma printedTexts_AddLine `{UnicodeCase} (job : virtual1403) (s : string) :
  job_inv job ->
  printedTexts (pdf (AddLine job s)) = printedTexts (pdf job) ++ [lineText s].
Proof.
  intros [_ (pg & pgs & Hp & _)]. unfold AddLine.
  destruct (maxLinesPerPage <=? curLine job).
  - unfold printedTexts. simpl pages. rewrite printedTexts_cons.
    reflexivity.
  - unfold printedTexts. simpl pages. rewrite Hp, !printedTexts_cons.
    simpl. now rewrite List.app_assoc.
Qed.

Lemma printedTexts_calls `{UnicodeCase} (cs : list JobCall) (job : virtual1403) :
  job_inv job ->
  printedTexts (pdf (calls job cs))
  = printedTexts (pdf job) ++ List.map lineText (addedLines cs).
Proof.
  revert job. induction cs as [|c cs IH]; intros job Hinv.
  - simpl. now rewrite List.app_nil_r.
  - destruct c as [s|]; simpl.
    + change (printedTexts (pdf (calls (AddLine job s) cs))
              = printedTexts (pdf job) ++ lineText s :: List.map lineText (addedLines cs)).
      rewrite IH by (now apply AddLine_inv).
      rewrite printedTexts_AddLine by assumption.
      now rewrite <- List.app_assoc.
    + change (printedTexts (pdf (calls (NewPage job) cs))
              = printedTexts (pdf job) ++ List.map lineText (addedLines cs)).
      rewrite IH by (apply NewPage_inv, job_inv_pages, Hinv).
      now rewrite printedTexts_NewPage.
Qed.

(** X1: whatever the sequence of [AddLine] and [NewPage] calls on a job
    of [New1403], the texts on its pages, read from the first page to the
    last and down each page, are the lines given to [AddLine] in the
    order of the calls, each as [AddLine] draws it: no line is lost,
    repeated or moved. *)
Theorem lines_printed_in_order `{UnicodeCase} `{FontMetrics}
    (f : list Byte.byte) (cs : list JobCall) :
  printedTexts (pdf (calls (New1403 f) cs)) = List.map lineText (addedLines cs).
Proof.
  rewrite printedTexts_calls by apply New1403_inv. reflexivity.
Qed.

(** The lines on the current page and the pages filled before it, after
    [t] lines on a job that was given nothing else. *)
Definition onPage (t : Z) : Z := if t =? 0 then 0 else 1 + (t - 1) mod 61.
Definition fullPages (t : Z) : Z := if t =? 0 then 0 else (t - 1) / 61.

Lemma onPage_next (t : Z) :
  0 <= t ->
  0 <= onPage t <= 61 /\ 0 <= fullPages t /\
  (onPage t = 61 -> onPage (t + 1) = 1 /\ fullPages (t + 1) = fullPages t + 1) /\
  (onPage t <> 61 ->
     onPage (t + 1) = onPage t + 1 /\ fullPages (t + 1) = fullPages t).
Proof.
  intros Ht. unfold onPage, fullPages.
  destruct (Z.eqb_spec t 0) as [->|Hne]; [simpl; repeat split; lia|].
  destruct (Z.eqb_spec (t + 1) 0); [lia|].
  replace (t + 1 - 1) with (t - 1 + 1) by lia.
  pose proof (Z.mod_pos_bound (t - 1) 61 ltac:(lia)) as Hm.
  pose proof (Z.div_pos (t - 1) 61 ltac:(lia) ltac:(lia)) as Hd.
  pose proof (Z.div_mod (t - 1) 61 ltac:(lia)) as Heq.
  pose proof (Z.mod_pos_bound (t - 1 + 1) 61 ltac:(lia)) as Hm'.
  pose proof (Z.div_mod (t - 1 + 1) 61 ltac:(lia)) as Heq'.
  repeat split; try lia; intros Hfull; nia.
Qed.

Definition lines_inv (job : virtual1403) (t : Z) : Prop :=
  pageSizes (pdf job)
    = Z.to_nat (onPage t) :: repeat 61%nat (Z.to_nat (fullPages t)) /\
  curLine job = 5 + onPage t.

Lemma AddLine_lines_inv `{UnicodeCase} (job : virtual1403) (s : string) (t : Z) :
  0 <= t -> lines_inv job t -> lines_inv (AddLine job s) (t + 1).
Proof.
  intros Ht [Hsizes Hcur].
  destruct (onPage_next t Ht) as (Hon & Hfull & Hturn & Hstay).
  unfold lines_inv, pageSizes, AddLine in *.
  destruct (maxLinesPerPage <=? curLine job) eqn:Hover;
    unfold maxLinesPerPage in Hover.
  - apply Z.leb_le in Hover. destruct Hturn as [Hon1 Hfull1]; [lia|].
    simpl pdf. simpl pages. cbn [List.map length]. rewrite Hsizes.
    rewrite Hon1, Hfull1. simpl curLine.
    split; [|now rewrite int_wrap_small by lia].
    replace (Z.to_nat (onPage t)) with 61%nat by lia.
    replace (Z.to_nat (fullPages t + 1)) with (S (Z.to_nat (fullPages t))) by lia.
    reflexivity.
  - apply Z.leb_gt in Hover. destruct Hstay as [Hon1 Hfull1]; [lia|].
    simpl pdf. simpl pages.
    destruct (pages (pdf job)) as [|pg pgs]; [discriminate Hsizes|].
    cbn [List.map length] in *. rewrite Hon1, Hfull1. simpl curLine.
    split; [|rewrite int_wrap_small by lia; lia].
    injection Hsizes as Hpg Hpgs. rewrite Hpgs, Hpg.
    f_equal. lia.
Qed.

Lemma lines_only_inv `{UnicodeCase} (ls : list string) (job : virtual1403) (t : Z) :
  0 <= t -> lines_inv job t ->
  lines_inv (calls job (List.map CallAddLine ls)) (t + Z.of_nat (length ls)).
Proof.
  revert job t. induction ls as [|s ls IH]; intros job t Ht Hinv.
  - simpl. now rewrite Z.add_0_r.
  - replace (t + Z.of_nat (length (s :: ls)))
      with (t + 1 + Z.of_nat (length ls)) by (simpl length; lia).
    apply (IH (AddLine job s)); [lia|]. now apply AddLine_lines_inv.
Qed.

(** X2: a job of [New1403] that is given [n >= 1] lines and no page
    break of its own holds [1 + (n-1)/61] pages, that is [n/61] rounded
    up: every page before the current one carries exactly 61 lines, the
    current one the remaining [1 + (n-1) mod 61], and the line counter
    stands at [6 + (n-1) mod 61]. With no line at all the job has one
    empty page. *)
Theorem lines_fill_pages_of_61 `{UnicodeCase} `{FontMetrics}
    (f : list Byte.byte) (ls : list string) :
  let n := Z.of_nat (length ls) in
  let job := calls (New1403 f) (List.map CallAddLine ls) in
  (ls = [] -> pageSizes (pdf job) = [0%nat] /\ curLine job = 5) /\
  (ls <> [] ->
     pageSizes (pdf job)
       = Z.to_nat (1 + (n - 1) mod 61) :: repeat 61%nat (Z.to_nat ((n - 1) / 61)) /\
     Z.of_nat (length (pages (pdf job))) = 1 + (n - 1) / 61 /\
     curLine job = 6 + (n - 1) mod 61).
Proof.
  intros n job.
  assert (Hinv : lines_inv job (0 + n)).
  { apply lines_only_inv; [lia|]. split; reflexivity. }
  rewrite Z.add_0_l in Hinv. destruct Hinv as [Hsizes Hcur].
  split.
  - intros ->. split; reflexivity.
  - intros Hne.
    assert (Hn : n <> 0) by (subst n; destruct ls; [congruence|simpl; lia]).
    unfold onPage, fullPages in *.
    destruct (Z.eqb_spec n 0) as [|_]; [contradiction|].
    split; [exact Hsizes|]. split; [|lia].
    assert (Hlen : length (pages (pdf job)) = length (pageSizes (pdf job)))
      by (unfold pageSizes; now rewrite List.length_map).
    rewrite Hlen, Hsizes. simpl length. rewrite repeat_length.
    pose proof (Z.div_pos (n - 1) 61 ltac:(lia) ltac:(lia)). lia.
Qed.

Lemma lines_fill_pages_of_61_witness :
  let job := calls (H := asciiOnlyCase)
               (New1403 (H := {| GetStringWidth := fun _ _ => 950.5%float |}) [])
               (List.map CallAddLine (repeat "line"%string 123)) in
  pageSizes (pdf job) = [1%nat; 61%nat; 61%nat] /\
  Z.of_nat (length (pages (pdf job))) = 3 /\
  curLine job = 6.
Proof.
  refine (proj2 (lines_fill_pages_of_61 (H := asciiOnlyCase)
                   (H0 := {| GetStringWidth := fun _ _ => 950.5%float |})
                   [] (repeat "line"%string 123)) _).
  discriminate.
Defined.

(** ** Where the lines are drawn *)

Lemma lineY_on_form (k : nat) :
  (k <= 60)%nat ->
  forall x txt, onForm (x, lineY (5 + Z.of_nat k), txt) = true.
Proof.
  intros Hk x txt.
  assert (Hall : forallb
            (fun i => onForm (0%float, lineY (5 + Z.of_nat i), EmptyString))
            (seq 0 61) = true) by (vm_compute; reflexivity).
  rewrite forallb_forall in Hall.
  apply (Hall k). apply in_seq. lia.
Qed.

Lemma layout_on_form (x : float) (texts : list string) :
  (length texts <= 61)%nat -> Forall (fun c => onForm c = true) (layout x texts).
Proof.
  induction texts as [|txt above IH]; intros Hlen; simpl; constructor.
  - apply lineY_on_form. simpl in Hlen. lia.
  - apply IH. simpl in Hlen. lia.
Qed.

Lemma layout_texts (x : float) (texts : list string) :
  List.map snd (layout x texts) = texts.
Proof. induction texts as [|txt above IH]; simpl; congruence. Qed.

Lemma layout_pages_texts (x : float) (pgs : list (list string)) :
  List.map (List.map snd) (List.map (layout x) pgs) = pgs.
Proof.
  induction pgs as [|pg pgs IH]; simpl; [reflexivity|].
  now rewrite layout_texts, IH.
Qed.

Lemma layout_pages_on_form (x : float) (pgs : list (list string)) :
  Forall (fun pg => (length pg <= 61)%nat) pgs ->
  Forall (Forall (fun c => onForm c = true)) (List.map (layout x) pgs).
Proof.
  induction 1 as [|pg pgs Hpg _ IH]; simpl; constructor.
  - now apply layout_on_form.
  - exact IH.
Qed.

(** Between calls the cells are where [layout] puts them, at the margin
    the job was made with. *)
Definition placed_inv (job : virtual1403) : Prop :=
  placed (pdf job) = List.map (layout (leftMargin job)) (pages (pdf job)).

Lemma NewPage_placed_inv (job : virtual1403) :
  placed_inv job -> placed_inv (NewPage job).
Proof. unfold placed_inv. simpl. now intros ->. Qed.

Lemma AddLine_placed_inv `{UnicodeCase} (job : virtual1403) (s : string) :
  job_inv job -> placed_inv job -> placed_inv (AddLine job s).
Proof.
  intros Hinv Hplaced. unfold AddLine.
  set (job' := if maxLinesPerPage <=? curLine job then NewPage job else job).
  assert (Hinv' : job_inv job' /\ placed_inv job' /\ curLine job' < maxLinesPerPage).
  { subst job'. destruct (maxLinesPerPage <=? curLine job) eqn:Hfull.
    - split; [apply NewPage_inv, job_inv_pages, Hinv|].
      split; [now apply NewPage_placed_inv|]. unfold maxLinesPerPage. simpl. lia.
    - apply Z.leb_gt in Hfull. auto. }
  clearbody job'.
  destruct Hinv' as ([Hc (pg & pgs & Hp & Hlen & _)] & Hpl & Hlt).
  unfold maxLinesPerPage in *. unfold placed_inv in *.
  simpl pdf. simpl leftMargin. simpl placed. simpl pages.
  rewrite Hpl, Hp. simpl.
  rewrite int_wrap_small by lia.
  unfold lineY. replace (5 + Z.of_nat (length pg)) with (curLine job') by lia.
  reflexivity.
Qed.

Lemma AddLine_leftMargin `{UnicodeCase} (job : virtual1403) (s : string) :
  leftMargin (AddLine job s) = leftMargin job.
Proof.
  unfold AddLine. simpl. now destruct (maxLinesPerPage <=? curLine job).
Qed.

Lemma calls_placed_inv `{UnicodeCase} (cs : list JobCall) (job : virtual1403) :
  job_inv job -> placed_inv job ->
  placed_inv (calls job cs) /\ leftMargin (calls job cs) = leftMargin job.
Proof.
  revert job. induction cs as [|c cs IH]; intros job Hinv Hpl; [now split|].
  destruct c as [s|]; simpl.
  - destruct (IH (AddLine job s)) as [Hp Hm];
      [now apply AddLine_inv | now apply AddLine_placed_inv |].
    split; [exact Hp|]. rewrite Hm. apply AddLine_leftMargin.
  - destruct (IH (NewPage job)) as [Hp Hm];
      [apply NewPage_inv, job_inv_pages, Hinv | now apply NewPage_placed_inv |].
    split; [exact Hp|]. rewrite Hm. reflexivity.
Qed.

(** X3: on a job of [New1403], after any calls, every text line has been
    drawn at the left margin computed when the job was made and at the
    height [12 * (5 + k) + 0.25] of its place [k] on its page (counted
    from 0), so between 60.25 and 780.25 points down the 792-point form:
    the position of a line depends on nothing but its rank on the
    page. *)
Theorem lines_drawn_on_the_form `{UnicodeCase} `{FontMetrics}
    (f : list Byte.byte) (cs : list JobCall) :
  let job := calls (New1403 f) cs in
  placed (pdf job)
    = List.map (layout (leftMargin (New1403 f))) (pages (pdf job)) /\
  List.map (List.map snd) (placed (pdf job)) = pages (pdf job) /\
  Forall (Forall (fun c => onForm c = true)) (placed (pdf job)).
Proof.
  intros job.
  destruct (calls_placed_inv cs (New1403 f)) as [Hpl Hm];
    [apply New1403_inv | reflexivity |].
  fold job in Hpl, Hm. unfold placed_inv in Hpl. rewrite Hm in Hpl.
  assert (Hsizes : Forall (fun pg => (length pg <= 61)%nat) (pages (pdf job)))
    by (apply job_inv_pages, calls_inv, New1403_inv).
  split; [exact Hpl|]. rewrite Hpl. split.
  - apply layout_pages_texts.
  - apply layout_pages_on_form, Hsizes.
Qed.

End Vprinter.

(* ===================================================================== *)
(** * NewProfile *)
(* ===================================================================== *)

Module Profile.
Import GoStrings.

(** [ColorRGB] is declared in a file not embedded here; the profiles build
    it from three components and use its zero value. *)
Record ColorRGB : Type := { R : Z; G : Z; B : Z }.

Definition DarkGreen : ColorRGB := {| R := 99; G := 182; B := 99 |}.
Definition LightGreen : ColorRGB := {| R := 219; G := 240; B := 219 |}.

Definition DarkBlue : ColorRGB := {| R := 65; G := 182; B := 255 |}.
Definition LightBlue : ColorRGB := {| R := 214; G := 239; B := 255 |}.

Definition zeroColor : ColorRGB := {| R := 0; G := 0; B := 0 |}.

(** The case labels of the switch in [NewProfile]. *)
Definition profileNames : list string :=
  [ "default-green"; "default-green-noskip"; "default-blue";
    "default-blue-noskip"; "default-plain"; "default-plain-noskip";
    "retro-green"; "retro-green-noskip"; "retro-blue"; "retro-blue-noskip";
    "retro-plain"; "retro-plain-noskip"; "modern-green";
    "modern-green-skip5"; "modern-green-noskip"; "modern-blue";
    "modern-blue-skip5"; "modern-blue-noskip"; "modern-plain";
    "modern-plain-skip5"; "modern-plain-noskip"; "lpi8-modern-green";
    "lpi8-modern-green-noskip"; "lpi8-modern-blue";
    "lpi8-modern-blue-noskip"; "lpi8-modern-plain";
    "lpi8-modern-plain-noskip" ]%string.

(** The arguments of one call of the seven-parameter [New1403] that
    [NewProfile] builds its jobs with. That constructor is not in the
    sources embedded here ([Vprinter.New1403] is the one-parameter constructor of
    [1403.go]); a value of [JobArgs] stands for its result where a
    concrete one is needed. *)
Record JobArgs : Type := {
  argFont : list Byte.byte;
  argSize : float;
  argSkip : Z;
  argVintage : bool;
  argBars : bool;
  argDark : ColorRGB;
  argLight : ColorRGB
}.

Section NewProfile.

Context `{UnicodeCase}.

(** What [New1403] returns: a [Job] and an [error]. *)
Variable JobResult : Type.
Variable New1403 :
  list Byte.byte -> float -> Z -> bool -> bool -> ColorRGB -> ColorRGB -> JobResult.

(** The embedded fonts. *)
Variable defaultFont : list Byte.byte.
Variable wornFont : list Byte.byte.

(** A [[]byte] that may be [nil] is an [option]. *)
Definition NewProfile (profile : string) (fontOverride : option (list Byte.byte))
    (sizeOverride : float) : JobResult :=
  let tempFont :=
    match fontOverride with
    | Some f => f
    | None => defaultFont
    end in
  let tempSize :=
    if PrimFloat.ltb 0%float sizeOverride then sizeOverride else 12.0%float in
  let p := ToLower profile in
  if String.eqb p "default-green" then
    New1403 tempFont tempSize 6 true true DarkGreen LightGreen
  else if String.eqb p "default-green-noskip" then
    New1403 tempFont tempSize 1 true true DarkGreen LightGreen
  else if String.eqb p "default-blue" then
    New1403 tempFont tempSize 6 true true DarkBlue LightBlue
  else if String.eqb p "default-blue-noskip" then
    New1403 tempFont tempSize 1 true true DarkBlue LightBlue
  else if String.eqb p "default-plain" then
    New1403 tempFont tempSize 6 true false zeroColor zeroColor
  else if String.eqb p "default-plain-noskip" then
    New1403 tempFont tempSize 1 true false zeroColor zeroColor
  else if String.eqb p "retro-green" then
    New1403 wornFont 10%float 6 true true DarkGreen LightGreen
  else if String.eqb p "retro-green-noskip" then
    New1403 wornFont 10%float 1 true true DarkGreen LightGreen
  else if String.eqb p "retro-blue" then
    New1403 wornFont 10%float 6 true true DarkBlue LightBlue
  else if String.eqb p "retro-blue-noskip" then
    New1403 wornFont 10%float 1 true true DarkBlue LightBlue
  else if String.eqb p "retro-plain" then
    New1403 wornFont 10%float 6 true false zeroColor zeroColor
  else if String.eqb p "retro-plain-noskip" then
    New1403 wornFont 10%float 1 true false zeroColor zeroColor
  else if String.eqb p "modern-green" then
    New1403 defaultFont 12.0%float 6 false true DarkGreen LightGreen
  else if String.eqb p "modern-green-skip5" then
    New1403 defaultFont 12.0%float 5 false true DarkGreen LightGreen
  else if String.eqb p "modern-green-noskip" then
    New1403 defaultFont 12.0%float 1 false true DarkGreen LightGreen
  else if String.eqb p "modern-blue" then
    New1403 defaultFont 12.0%float 6 false true DarkBlue LightBlue
  else if String.eqb p "modern-blue-skip5" then
    New1403 defaultFont 12.0%float 5 false true DarkBlue LightBlue
  else if String.eqb p "modern-blue-noskip" then
    New1403 defaultFont 12.0%float 1 false true DarkBlue LightBlue
  else if String.eqb p "modern-plain" then
    New1403 defaultFont 12.0%float 6 false false zeroColor zeroColor
  else if String.eqb p "modern-plain-skip5" then
    New1403 defaultFont 12.0%float 5 false false zeroColor zeroColor
  else if String.eqb p "modern-plain-noskip" then
    New1403 defaultFont 12.0%float 1 false false zeroColor zeroColor
  else if String.eqb p "lpi8-modern-green" then
    New1403 defaultFont 9.0%float 8 false true DarkGreen LightGreen
  else if String.eqb p "lpi8-modern-green-noskip" then
    New1403 defaultFont 9.0%float 1 false true DarkGreen LightGreen
  else if String.eqb p "lpi8-modern-blue" then
    New1403 defaultFont 9.0%float 8 false true DarkBlue LightBlue
  else if String.eqb p "lpi8-modern-blue-noskip" then
    New1403 defaultFont 9.0%float 1 false true DarkBlue LightBlue
  else if String.eqb p "lpi8-modern-plain" then
    New1403 defaultFont 9.0%float 8 false false zeroColor zeroColor
  else if String.eqb p "lpi8-modern-plain-noskip" then
    New1403 defaultFont 9.0%float 1 false false zeroColor zeroColor
  else
    (* default is the same as default-green *)
    New1403 tempFont tempSize 6 true true DarkGreen LightGreen.

(** A name off the list fails every comparison of the switch. *)
Lemma unrecognized_eqb (profile name : string) :
  ~ In (ToLower profile) profileNames ->
  In name profileNames ->
  String.eqb (ToLower profile) name = false.
Proof.
  intros Hnot Hin. apply String.eqb_neq. intros Heq.
  apply Hnot. rewrite Heq. exact Hin.
Qed.

(** C10: a profile name that is, folded to lower case, none of the case
    labels gets the job of ["default-green"]: the override font when one
    is given and the embedded default font otherwise, the override size
    when it is positive and 12.0 otherwise, line skip 6, and the green
    colour pair. *)
Theorem NewProfile_unrecognized_is_default_green
    (profile : string) (fontOverride : option (list Byte.byte))
    (sizeOverride : float) :
  ~ In (ToLower profile) profileNames ->
  NewProfile profile fontOverride sizeOverride
    = NewProfile "default-green" fontOverride sizeOverride /\
  NewProfile profile fontOverride sizeOverride
    = New1403
        (match fontOverride with Some f => f | None => defaultFont end)
        (if PrimFloat.ltb 0%float sizeOverride then sizeOverride else 12.0%float)
        6 true true DarkGreen LightGreen.
Proof.
  intros Hnot.
  assert (Hdefault :
    NewProfile profile fontOverride sizeOverride
    = New1403
        (match fontOverride with Some f => f | None => defaultFont end)
        (if PrimFloat.ltb 0%float sizeOverride then sizeOverride else 12.0%float)
        6 true true DarkGreen LightGreen).
  { unfold NewProfile.
    repeat (rewrite (unrecognized_eqb profile _ Hnot)
              by (unfold profileNames; simpl; tauto)).
    reflexivity. }
  split; [|exact Hdefault].
  rewrite Hdefault. reflexivity.
Qed.

(** ** The names and what they select *)

Definition startsWith (pre s : string) : bool := String.prefix pre s.

Definition endsWith (suf s : string) : bool :=
  String.eqb
    (substring (String.length s - String.length suf)%nat (String.length suf) s)
    suf.

Definition contains (sub s : string) : bool :=
  match String.index 0 sub s with
  | Some _ => true
  | None => false
  end.

(** What the parts of a profile name stand for: the family it starts
    with, the colour it names, and the line skip it ends with. *)
Definition fontOf (name : string) (tempFont : list Byte.byte) : list Byte.byte :=
  if startsWith "default-" name then tempFont
  else if startsWith "retro-" name then wornFont
  else defaultFont.

Definition sizeOf (name : string) (tempSize : float) : float :=
  if startsWith "default-" name then tempSize
  else if startsWith "retro-" name then 10%float
  else if startsWith "lpi8-" name then 9.0%float
  else 12.0%float.

Definition skipOf (name : string) : Z :=
  if endsWith "-noskip" name then 1
  else if endsWith "-skip5" name then 5
  else if startsWith "lpi8-" name then 8
  else 6.

Definition vintageOf (name : string) : bool :=
  startsWith "default-" name || startsWith "retro-" name.

Definition barsOf (name : string) : bool := negb (contains "-plain" name).

Definition darkOf (name : string) : ColorRGB :=
  if contains "-green" name then DarkGreen
  else if contains "-blue" name then DarkBlue
  else zeroColor.

Definition lightOf (name : string) : ColorRGB :=
  if contains "-green" name then LightGreen
  else if contains "-blue" name then LightBlue
  else zeroColor.

Lemma all_bytes_map (q : ascii -> bool) (g : ascii -> ascii) (s : string) :
  all_bytes q (map_bytes g s) = all_bytes (fun c => q (g c)) s.
Proof. induction s as [|c r IH]; simpl; congruence. Qed.

Lemma lowerByte_no_upper (s : string) :
  any_byte isUpperByte s = false -> map_bytes lowerByte s = s.
Proof.
  induction s as [|c r IH]; simpl; [reflexivity|].
  intros [Hc Hr]%orb_false_elim.
  unfold lowerByte at 1. rewrite Hc, IH by assumption. reflexivity.
Qed.

(** On ASCII-only strings [ToLower] is the bytewise map. *)
Lemma ToLower_ascii (s : string) :
  isASCII s = true -> ToLower s = map_bytes lowerByte s.
Proof.
  intros Hs. unfold ToLower. rewrite Hs.
  destruct (any_byte isUpperByte s) eqn:Hu; [reflexivity|].
  symmetry. now apply lowerByte_no_upper.
Qed.

(** X4: [NewProfile] matches profile names without regard to the case of
    ASCII letters: two ASCII names that are equal once their capitals are
    lowered get the same job. *)
Theorem NewProfile_ignores_letter_case (p q : string)
    (fontOverride : option (list Byte.byte)) (sizeOverride : float) :
  isASCII p = true ->
  isASCII q = true ->
  map_bytes lowerByte p = map_bytes lowerByte q ->
  NewProfile p fontOverride sizeOverride = NewProfile q fontOverride sizeOverride.
Proof.
  intros Hp Hq Heq. unfold NewProfile.
  rewrite (ToLower_ascii p Hp), (ToLower_ascii q Hq), Heq. reflexivity.
Qed.

(** X5: for every recognized profile name the arguments of the job follow
    from the parts of the name: the family ([default-] with the font and
    size that the overrides give, [retro-] with the worn font at 10,
    [lpi8-] at 9 and the others at 12 with the default font), the line
    skip ([-noskip] 1, [-skip5] 5, otherwise 8 for [lpi8-] and 6), the
    bars (none for [-plain]) and the colours. So the font and size
    overrides reach the [default-] profiles only. *)
Theorem NewProfile_follows_name_parts (profile : string)
    (fontOverride : option (list Byte.byte)) (sizeOverride : float) :
  In (ToLower profile) profileNames ->
  let name := ToLower profile in
  NewProfile profile fontOverride sizeOverride
    = New1403
        (fontOf name (match fontOverride with Some f => f | None => defaultFont end))
        (sizeOf name
           (if PrimFloat.ltb 0%float sizeOverride then sizeOverride else 12.0%float))
        (skipOf name) (vintageOf name) (barsOf name) (darkOf name) (lightOf name) /\
  (startsWith "default-" name = false ->
   forall fontOverride' sizeOverride',
     NewProfile profile fontOverride sizeOverride
       = NewProfile profile fontOverride' sizeOverride').
Proof.
  intros Hin name. subst name. unfold NewProfile.
  unfold profileNames in Hin. simpl in Hin.
  repeat (destruct Hin as [Hin|Hin];
          [rewrite <- Hin; clear Hin; split;
           [vm_compute; reflexivity
           |intros Hdef; vm_compute in Hdef;
            first [discriminate Hdef | intros; vm_compute; reflexivity]] |]).
  destruct Hin.
Qed.

End NewProfile.

(** The constructor that records its arguments, to evaluate [NewProfile]
    with. *)
Definition recordArgs (f : list Byte.byte) (size : float) (skip : Z)
    (vintage bars : bool) (dark light : ColorRGB) : JobArgs :=
  {| argFont := f; argSize := size; argSkip := skip; argVintage := vintage;
     argBars := bars; argDark := dark; argLight := light |}.

Lemma NewProfile_unrecognized_witness :
  let np := NewProfile (H := asciiOnlyCase) JobArgs recordArgs
              [Byte.x01] [Byte.x02] in
  ~ In (ToLower (H := asciiOnlyCase) "Harvest-Gold") profileNames /\
  np "Harvest-Gold"%string None 0%float
    = np "default-green"%string None 0%float /\
  np "Harvest-Gold"%string None 0%float
    = recordArgs [Byte.x01] 12.0%float 6 true true DarkGreen LightGreen.
Proof.
  assert (Hoff : ~ In (ToLower (H := asciiOnlyCase) "Harvest-Gold") profileNames).
  { vm_compute. intuition discriminate. }
  split; [exact Hoff|].
  exact (NewProfile_unrecognized_is_default_green (H := asciiOnlyCase)
           JobArgs recordArgs [Byte.x01] [Byte.x02]
           "Harvest-Gold"%string None 0%float Hoff).
Defined.

Lemma NewProfile_ignores_letter_case_witness :
  let np := NewProfile (H := asciiOnlyCase) JobArgs recordArgs
              [Byte.x01] [Byte.x02] in
  isASCII "Retro-Blue" = true /\
  isASCII "RETRO-BLUE" = true /\
  np "Retro-Blue"%string None 0%float = np "RETRO-BLUE"%string None 0%float.
Proof.
  split; [reflexivity|]. split; [reflexivity|].
  exact (NewProfile_ignores_letter_case (H := asciiOnlyCase)
           JobArgs recordArgs [Byte.x01] [Byte.x02]
           "Retro-Blue"%string "RETRO-BLUE"%string None 0%float
           eq_refl eq_refl eq_refl).
Defined.

Lemma NewProfile_follows_name_parts_witness :
  let np := NewProfile (H := asciiOnlyCase) JobArgs recordArgs
              [Byte.x01] [Byte.x02] in
  In (ToLower (H := asciiOnlyCase) "LPI8-Modern-Blue-NoSkip") profileNames /\
  np "LPI8-Modern-Blue-NoSkip"%string (Some [Byte.x03]) 14%float
    = recordArgs [Byte.x01] 9.0%float 1 false true DarkBlue LightBlue.
Proof.
  assert (Hin : In (ToLower (H := asciiOnlyCase) "LPI8-Modern-Blue-NoSkip")
                  profileNames).
  { vm_compute. tauto. }
  split; [exact Hin|].
  exact (proj1 (NewProfile_follows_name_parts (H := asciiOnlyCase)
                  JobArgs recordArgs [Byte.x01] [Byte.x02]
                  "LPI8-Modern-Blue-NoSkip"%string (Some [Byte.x03]) 14%float
                  Hin)).
Defined.

(** Recognized names keep their own case: matching is done on the folded
    name, and the override applies to the default profiles only. *)
Example NewProfile_cases :
  let np := NewProfile (H := asciiOnlyCase) JobArgs recordArgs
              [Byte.x01] [Byte.x02] in
  np "Default-Blue"%string (Some [Byte.x03]) 9.5%float
    = recordArgs [Byte.x03] 9.5%float 6 true true DarkBlue LightBlue /\
  np "RETRO-GREEN-NOSKIP"%string (Some [Byte.x03]) 9.5%float
    = recordArgs [Byte.x02] 10%float 1 true true DarkGreen LightGreen /\
  np "default-green"%string (Some [Byte.x03]) (-1)%float
    = recordArgs [Byte.x03] 12.0%float 6 true true DarkGreen LightGreen.
Proof. vm_compute. repeat split. Qed.

End Profile.

(* ===================================================================== *)
(** * readConfig *)
(* ===================================================================== *)

Module Config.

(** The fields of [mailer.Config] that [readConfig] looks at. *)
Record mailer_Config : Type := {
  FromAddress : string;
  Server : string;
  Port : Z
}.

Section ReadConfig.

(** Compiled regular expressions, the errors of the libraries ([os],
    [yaml], [regexp]) and open files. *)
Context {Regexp E File : Type}.

Record ServerConfig : Type := {
  DatabaseFile : string;
  CreateAdmin : string;
  FontFile : string;
  ListenPort : Z;
  TLSListenPort : Z;
  TLSDomain : string;
  BaseURL : string;
  MailConfig : mailer_Config;
  QuotaJobs : Z;
  QuotaPages : Z;
  QuotaPeriod : Z;
  MaxLinesPerJob : Z;
  ConcurrentPrintJobs : Z;
  InactiveMonthsCleanup : Z;
  UnverifiedMonthsCleanup : Z;
  PDFDaysCleanup : Z;
  NuisanceJobNames : list string;
  nuisanceJobRegex : list Regexp;
  ServerAdmin : string
}.

(** The zero value, which [readConfig] returns when the file cannot be
    opened. *)
Definition zeroConfig : ServerConfig :=
  {| DatabaseFile := ""; CreateAdmin := ""; FontFile := ""; ListenPort := 0;
     TLSListenPort := 0; TLSDomain := ""; BaseURL := "";
     MailConfig := {| FromAddress := ""; Server := ""; Port := 0 |};
     QuotaJobs := 0; QuotaPages := 0; QuotaPeriod := 0; MaxLinesPerJob := 0;
     ConcurrentPrintJobs := 0; InactiveMonthsCleanup := 0;
     UnverifiedMonthsCleanup := 0; PDFDaysCleanup := 0;
     NuisanceJobNames := []; nuisanceJobRegex := []; ServerAdmin := "" |}.

(** The errors [readConfig] returns: one constructor for each
    [fmt.Errorf] with the values it formats, and one for an error handed
    on from [os.Open] or the YAML decoder. *)
Inductive ConfigError : Type :=
| Foreign (err : E)
| DatabaseFileRequired
| PortInvalid (port : Z)
| TLSPortInvalid (port : Z)
| TLSDomainRequired
| BaseURLRequired
| FromAddressInvalid (addr : string)
| ServerAdminInvalid (addr : string)
| MailServerRequired
| MailPortRequired
| MailPortInvalid (port : Z)
| InactiveNeedsUnverified
| UnverifiedNeedsInactive
| PDFDaysCleanupRequired
| NuisanceRegexError (pattern : string) (err : E).

(** [mailer.ValidateAddress], [regexp.Compile], [os.Open] and decoding the
    opened file as YAML into a [ServerConfig]. A failed decode leaves what
    it had decoded so far. *)
Variable ValidateAddress : string -> bool.
Variable Compile : string -> Regexp + E.
Variable Open : string -> File + E.
Variable Decode : File -> ServerConfig * option E.

(** [if cond { errs = append(errs, e) }] *)
Definition appendIf (cond : bool) (e : ConfigError) (errs : list ConfigError)
  : list ConfigError :=
  if cond then errs ++ [e] else errs.

(** The loop over [c.NuisanceJobNames]: an expression that does not
    compile adds an error and is skipped, one that compiles is appended
    to the compiled expressions. *)
Fixpoint compileNuisance (names : list string) (regs : list Regexp)
    (errs : list ConfigError) : list Regexp * list ConfigError :=
  match names with
  | [] => (regs, errs)
  | n :: rest =>
      match Compile n with
      | inr err => compileNuisance rest regs (errs ++ [NuisanceRegexError n err])
      | inl r => compileNuisance rest (regs ++ [r]) errs
      end
  end.

Definition set_nuisanceJobRegex (c : ServerConfig) (regs : list Regexp)
  : ServerConfig :=
  {| DatabaseFile := DatabaseFile c; CreateAdmin := CreateAdmin c;
     FontFile := FontFile c; ListenPort := ListenPort c;
     TLSListenPort := TLSListenPort c; TLSDomain := TLSDomain c;
     BaseURL := BaseURL c; MailConfig := MailConfig c;
     QuotaJobs := QuotaJobs c; QuotaPages := QuotaPages c;
     QuotaPeriod := QuotaPeriod c; MaxLinesPerJob := MaxLinesPerJob c;
     ConcurrentPrintJobs := ConcurrentPrintJobs c;
     InactiveMonthsCleanup := InactiveMonthsCleanup c;
     UnverifiedMonthsCleanup := UnverifiedMonthsCleanup c;
     PDFDaysCleanup := PDFDaysCleanup c;
     NuisanceJobNames := NuisanceJobNames c; nuisanceJobRegex := regs;
     ServerAdmin := ServerAdmin c |}.

(** The checks [readConfig] runs on the decoded configuration, in the
    order of the source. *)
Definition validate (c : ServerConfig) : ServerConfig * list ConfigError :=
  let errs := [] in
  let errs := appendIf (String.eqb (DatabaseFile c) "") DatabaseFileRequired errs in
  let errs := appendIf ((ListenPort c <? 1) || (65535 <? ListenPort c))
                (PortInvalid (ListenPort c)) errs in
  (* TLSListenPort is optional; <= 0 we don't run TLS listener *)
  let errs := appendIf ((1 <=? TLSListenPort c) && (65535 <? ListenPort c))
                (TLSPortInvalid (ListenPort c)) errs in
  (* If TLSListenPort is set, we require server hostname *)
  let errs := appendIf ((0 <? TLSListenPort c) && String.eqb (TLSDomain c) "")
                TLSDomainRequired errs in
  let errs := appendIf (String.eqb (BaseURL c) "") BaseURLRequired errs in
  let errs := appendIf (negb (ValidateAddress (FromAddress (MailConfig c))))
                (FromAddressInvalid (FromAddress (MailConfig c))) errs in
  let errs := appendIf (negb (ValidateAddress (ServerAdmin c)))
                (ServerAdminInvalid (ServerAdmin c)) errs in
  let errs := appendIf (String.eqb (Server (MailConfig c)) "")
                MailServerRequired errs in
  let errs := appendIf (Port (MailConfig c) =? 0) MailPortRequired errs in
  let errs := appendIf ((Port (MailConfig c) <? 1) || (65535 <? Port (MailConfig c)))
                (MailPortInvalid (Port (MailConfig c))) errs in
  let errs := appendIf ((0 <? InactiveMonthsCleanup c)
                        && (UnverifiedMonthsCleanup c <=? 0))
                InactiveNeedsUnverified errs in
  let errs := appendIf ((0 <? UnverifiedMonthsCleanup c)
                        && (InactiveMonthsCleanup c <=? 0))
                UnverifiedNeedsInactive errs in
  let errs := appendIf (PDFDaysCleanup c <? 1) PDFDaysCleanupRequired errs in
  (* Parse the nuisance regular expressions *)
  let r := compileNuisance (NuisanceJobNames c) (nuisanceJobRegex c) errs in
  (set_nuisanceJobRegex c (fst r), snd r).

Definition readConfig (path : string) : ServerConfig * list ConfigError :=
  match Open path with
  | inr err => (zeroConfig, [Foreign err])
  | inl f =>
      match Decode f with
      | (c, Some err) => (c, [Foreign err])
      | (c, None) => validate c
      end
  end.

(** The two errors of the cross-check of the cleanup thresholds. *)
Definition pairingError (e : ConfigError) : Prop :=
  e = InactiveNeedsUnverified \/ e = UnverifiedNeedsInactive.

(** The entries of [names] that compile, in order. *)
Fixpoint compiled (names : list string) : list Regexp :=
  match names with
  | [] => []
  | n :: rest =>
      match Compile n with
      | inl r => r :: compiled rest
      | inr _ => compiled rest
      end
  end.

(** ** What the checks add *)

Lemma In_appendIf (cond : bool) (e x : ConfigError) (errs : list ConfigError) :
  In e (appendIf cond x errs) <-> In e errs \/ (cond = true /\ e = x).
Proof.
  unfold appendIf. destruct cond.
  - rewrite in_app_iff. simpl. intuition congruence.
  - intuition congruence.
Qed.

Lemma compileNuisance_errs (names : list string) (regs : list Regexp)
    (errs : list ConfigError) (e : ConfigError) :
  In e (snd (compileNuisance names regs errs)) <->
  In e errs \/
  exists n err, In n names /\ Compile n = inr err /\ e = NuisanceRegexError n err.
Proof.
  revert regs errs. induction names as [|n rest IH]; intros regs errs; simpl.
  - split; [auto|]. intros [Hin|(n & err & [] & _)]. exact Hin.
  - destruct (Compile n) as [r|err] eqn:Hn; rewrite IH.
    + split.
      * intros [Hin|(m & err & Hm & Hc & He)]; [auto|].
        right. exists m, err. auto.
      * intros [Hin|(m & err & [Hm|Hm] & Hc & He)]; [auto| |].
        -- subst m. congruence.
        -- right. exists m, err. auto.
    + rewrite in_app_iff. simpl. split.
      * intros [[Hin|[He|[]]]|(m & err' & Hm & Hc & He)]; [auto| |].
        -- right. exists n, err. auto.
        -- right. exists m, err'. auto.
      * intros [Hin|(m & err' & [Hm|Hm] & Hc & He)]; [auto| |].
        -- subst m. left. right. left. congruence.
        -- right. exists m, err'. auto.
Qed.

Lemma compileNuisance_regs (names : list string) (regs : list Regexp)
    (errs : list ConfigError) :
  fst (compileNuisance names regs errs) = regs ++ compiled names.
Proof.
  revert regs errs. induction names as [|n rest IH]; intros regs errs; simpl.
  - now rewrite app_nil_r.
  - destruct (Compile n) as [r|err]; rewrite IH; [|reflexivity].
    now rewrite <- app_assoc.
Qed.

Lemma In_compiled (names : list string) (n : string) (r : Regexp) :
  In n names -> Compile n = inl r -> In r (compiled names).
Proof.
  induction names as [|m rest IH]; simpl; [tauto|].
  intros [Hm|Hin] Hc.
  - subst m. rewrite Hc. now left.
  - destruct (Compile m); [right|]; auto.
Qed.

(** The errors of [validate], check by check. *)
Lemma In_validate (c : ServerConfig) (e : ConfigError) :
  In e (snd (validate c)) <->
  (((((((((((((False
    \/ (String.eqb (DatabaseFile c) "" = true /\ e = DatabaseFileRequired))
    \/ (((ListenPort c <? 1) || (65535 <? ListenPort c)) = true
        /\ e = PortInvalid (ListenPort c)))
    \/ (((1 <=? TLSListenPort c) && (65535 <? ListenPort c)) = true
        /\ e = TLSPortInvalid (ListenPort c)))
    \/ (((0 <? TLSListenPort c) && String.eqb (TLSDomain c) "") = true
        /\ e = TLSDomainRequired))
    \/ (String.eqb (BaseURL c) "" = true /\ e = BaseURLRequired))
    \/ (negb (ValidateAddress (FromAddress (MailConfig c))) = true
        /\ e = FromAddressInvalid (FromAddress (MailConfig c))))
    \/ (negb (ValidateAddress (ServerAdmin c)) = true
        /\ e = ServerAdminInvalid (ServerAdmin c)))
    \/ (String.eqb (Server (MailConfig c)) "" = true /\ e = MailServerRequired))
    \/ ((Port (MailConfig c) =? 0) = true /\ e = MailPortRequired))
    \/ (((Port (MailConfig c) <? 1) || (65535 <? Port (MailConfig c))) = true
        /\ e = MailPortInvalid (Port (MailConfig c))))
    \/ (((0 <? InactiveMonthsCleanup c) && (UnverifiedMonthsCleanup c <=? 0)) = true
        /\ e = InactiveNeedsUnverified))
    \/ (((0 <? UnverifiedMonthsCleanup c) && (InactiveMonthsCleanup c <=? 0)) = true
        /\ e = UnverifiedNeedsInactive))
    \/ ((PDFDaysCleanup c <? 1) = true /\ e = PDFDaysCleanupRequired))
  \/ exists n err,
       In n (NuisanceJobNames c) /\ Compile n = inr err
       /\ e = NuisanceRegexError n err.
Proof.
  unfold validate. cbv zeta. cbn [snd].
  rewrite compileNuisance_errs, !In_appendIf. simpl In. reflexivity.
Qed.

Lemma readConfig_decoded (path : string) (f : File) (c : ServerConfig) :
  Open path = inl f -> Decode f = (c, None) -> readConfig path = validate c.
Proof. intros Ho Hd. unfold readConfig. now rewrite Ho, Hd. Qed.

Lemma In_nonempty (errs : list ConfigError) (e : ConfigError) :
  In e errs -> errs <> [].
Proof. intros Hin Hnil. rewrite Hnil in Hin. exact Hin. Qed.

(** Exactly one of the two cleanup thresholds is positive. *)
Definition onePositive (c : ServerConfig) : Prop :=
  (0 < InactiveMonthsCleanup c /\ UnverifiedMonthsCleanup c <= 0) \/
  (0 < UnverifiedMonthsCleanup c /\ InactiveMonthsCleanup c <= 0).

(** Both thresholds are positive, or neither is. *)
Definition bothOrNeither (c : ServerConfig) : Prop :=
  (0 < InactiveMonthsCleanup c /\ 0 < UnverifiedMonthsCleanup c) \/
  (InactiveMonthsCleanup c <= 0 /\ UnverifiedMonthsCleanup c <= 0).

(** The thresholds as the specification pairs them: both zero or both
    positive. *)
Definition bothZeroOrBothPositive (c : ServerConfig) : Prop :=
  (InactiveMonthsCleanup c = 0 /\ UnverifiedMonthsCleanup c = 0) \/
  (0 < InactiveMonthsCleanup c /\ 0 < UnverifiedMonthsCleanup c).

Definition set_TLSListenPort (c : ServerConfig) (port : Z) : ServerConfig :=
  {| DatabaseFile := DatabaseFile c; CreateAdmin := CreateAdmin c;
     FontFile := FontFile c; ListenPort := ListenPort c;
     TLSListenPort := port; TLSDomain := TLSDomain c;
     BaseURL := BaseURL c; MailConfig := MailConfig c;
     QuotaJobs := QuotaJobs c; QuotaPages := QuotaPages c;
     QuotaPeriod := QuotaPeriod c; MaxLinesPerJob := MaxLinesPerJob c;
     ConcurrentPrintJobs := ConcurrentPrintJobs c;
     InactiveMonthsCleanup := InactiveMonthsCleanup c;
     UnverifiedMonthsCleanup := UnverifiedMonthsCleanup c;
     PDFDaysCleanup := PDFDaysCleanup c;
     NuisanceJobNames := NuisanceJobNames c;
     nuisanceJobRegex := nuisanceJobRegex c;
     ServerAdmin := ServerAdmin c |}.

(** C3, as the code has it: [readConfig] returns an error (one of the two
    pairing errors among them) for every configuration in which exactly
    one of the two cleanup thresholds is positive, and no pairing error
    for a configuration in which both are positive or neither is; a
    threshold below zero counts as not set. *)
Theorem readConfig_threshold_pairing (path : string) (f : File) (c : ServerConfig) :
  Open path = inl f ->
  Decode f = (c, None) ->
  let errs := snd (readConfig path) in
  (onePositive c -> errs <> [] /\ exists e, In e errs /\ pairingError e) /\
  (bothOrNeither c -> forall e, In e errs -> ~ pairingError e).
Proof.
  intros Ho Hd errs. subst errs. rewrite (readConfig_decoded path f c Ho Hd).
  split.
  - intros Hone.
    assert (Hex : exists e, In e (snd (validate c)) /\ pairingError e).
    { destruct Hone as [[Hi Hu]|[Hu Hi]].
      - exists InactiveNeedsUnverified. split; [|now left].
        apply In_validate.
        assert ((0 <? InactiveMonthsCleanup c)
                && (UnverifiedMonthsCleanup c <=? 0) = true) as Hb.
        { apply andb_true_intro. split; [apply Z.ltb_lt|apply Z.leb_le]; lia. }
        tauto.
      - exists UnverifiedNeedsInactive. split; [|now right].
        apply In_validate.
        assert ((0 <? UnverifiedMonthsCleanup c)
                && (InactiveMonthsCleanup c <=? 0) = true) as Hb.
        { apply andb_true_intro. split; [apply Z.ltb_lt|apply Z.leb_le]; lia. }
        tauto. }
    split; [|exact Hex].
    destruct Hex as (e & Hin & _). exact (In_nonempty _ e Hin).
  - intros Hboth e Hin Hpair. apply In_validate in Hin.
    destruct Hin as [Hin|(n & err & _ & _ & He)].
    + destruct Hpair as [He|He]; subst e;
        repeat (destruct Hin as [Hin|[Hb He]];
                [|try discriminate He;
                  apply andb_prop in Hb; destruct Hb as [Hb1 Hb2];
                  apply Z.ltb_lt in Hb1; apply Z.leb_le in Hb2;
                  unfold bothOrNeither in Hboth; lia]);
        exact Hin.
    + destruct Hpair as [Hp|Hp]; congruence.
Qed.

(** C4: when an entry of [nuisance_job_names] does not compile,
    [readConfig] returns a non-empty error list that holds the error of
    that entry, and whether or not one fails, every entry that compiles
    is among the compiled expressions of the returned configuration:
    these are the ones the configuration came with followed by the
    compiled entries in their order. *)
Theorem readConfig_nuisance_patterns (path : string) (f : File) (c : ServerConfig) :
  Open path = inl f ->
  Decode f = (c, None) ->
  let r := readConfig path in
  (forall n err, In n (NuisanceJobNames c) -> Compile n = inr err ->
     snd r <> [] /\ In (NuisanceRegexError n err) (snd r)) /\
  (forall n re, In n (NuisanceJobNames c) -> Compile n = inl re ->
     In re (nuisanceJobRegex (fst r))) /\
  nuisanceJobRegex (fst r) = nuisanceJobRegex c ++ compiled (NuisanceJobNames c).
Proof.
  intros Ho Hd r. subst r. rewrite (readConfig_decoded path f c Ho Hd).
  assert (Hregs : nuisanceJobRegex (fst (validate c))
                  = nuisanceJobRegex c ++ compiled (NuisanceJobNames c)).
  { unfold validate. cbv zeta. cbn [fst set_nuisanceJobRegex nuisanceJobRegex].
    apply compileNuisance_regs. }
  split; [|split; [|exact Hregs]].
  - intros n err Hin Hc.
    assert (Herr : In (NuisanceRegexError n err) (snd (validate c))).
    { apply In_validate. right. exists n, err. auto. }
    split; [exact (In_nonempty _ _ Herr)|exact Herr].
  - intros n re Hin Hc. rewrite Hregs. apply in_or_app. right.
    now apply In_compiled with n.
Qed.

(** C9: with [listen_port] within 1..65535, [readConfig] returns no TLS
    port range error whatever [tls_listen_port] is, since the range check
    of the TLS port reads [ListenPort]; of the checks on the TLS port
    only the one that requires a TLS domain remains, and any two positive
    TLS ports give the same errors. *)
Theorem readConfig_tls_port_range_unchecked (path : string) (f : File)
    (c : ServerConfig) :
  Open path = inl f ->
  Decode f = (c, None) ->
  1 <= ListenPort c <= 65535 ->
  let errs := snd (readConfig path) in
  (forall port, ~ In (TLSPortInvalid port) errs) /\
  (In TLSDomainRequired errs <-> 0 < TLSListenPort c /\ TLSDomain c = ""%string) /\
  (forall port, 0 < TLSListenPort c -> 0 < port ->
     snd (validate (set_TLSListenPort c port)) = errs).
Proof.
  intros Ho Hd Hport errs. subst errs.
  rewrite (readConfig_decoded path f c Ho Hd).
  assert (Hrange : (65535 <? ListenPort c) = false) by (apply Z.ltb_ge; lia).
  split; [|split].
  - intros port Hin. apply In_validate in Hin.
    destruct Hin as [Hin|(n & err & _ & _ & He)]; [|discriminate He].
    repeat (destruct Hin as [Hin|[Hb He]];
            [|try discriminate He;
              rewrite Hrange, andb_false_r in Hb; discriminate Hb]).
    exact Hin.
  - rewrite In_validate. split.
    + intros [Hin|(n & err & _ & _ & He)]; [|discriminate He].
      repeat (destruct Hin as [Hin|[Hb He]];
              [|try discriminate He;
                apply andb_prop in Hb; destruct Hb as [Hb1 Hb2];
                apply Z.ltb_lt in Hb1; apply String.eqb_eq in Hb2; auto]).
      destruct Hin.
    + intros [Hpos Hdom].
      assert ((0 <? TLSListenPort c) && String.eqb (TLSDomain c) "" = true) as Hb.
      { apply andb_true_intro. split; [now apply Z.ltb_lt|now apply String.eqb_eq]. }
      tauto.
  - intros port Hc Hp. unfold validate. cbv zeta.
    cbn [snd set_TLSListenPort DatabaseFile ListenPort TLSListenPort TLSDomain
         BaseURL MailConfig ServerAdmin InactiveMonthsCleanup
         UnverifiedMonthsCleanup PDFDaysCleanup NuisanceJobNames
         nuisanceJobRegex].
    assert (H1p : (1 <=? port) = (1 <=? TLSListenPort c)).
    { transitivity true; [|symmetry]; apply Z.leb_le; lia. }
    assert (H0p : (0 <? port) = (0 <? TLSListenPort c)).
    { transitivity true; [|symmetry]; apply Z.ltb_lt; lia. }
    rewrite H1p, H0p. reflexivity.
Qed.

(** ** What a configuration must hold to pass *)

(** Everything [readConfig] asks of a decoded configuration. *)
Definition accepted (c : ServerConfig) : Prop :=
  DatabaseFile c <> ""%string /\
  1 <= ListenPort c <= 65535 /\
  (0 < TLSListenPort c -> TLSDomain c <> ""%string) /\
  BaseURL c <> ""%string /\
  ValidateAddress (FromAddress (MailConfig c)) = true /\
  ValidateAddress (ServerAdmin c) = true /\
  Server (MailConfig c) <> ""%string /\
  1 <= Port (MailConfig c) <= 65535 /\
  ~ onePositive c /\
  1 <= PDFDaysCleanup c /\
  (forall n, In n (NuisanceJobNames c) -> exists r, Compile n = inl r).

Definition isNuisanceError (e : ConfigError) : bool :=
  match e with
  | NuisanceRegexError _ _ => true
  | _ => false
  end.

Lemma two_errors (errs : list ConfigError) (a b : ConfigError) :
  In a errs -> In b errs -> a <> b -> (2 <= length errs)%nat.
Proof.
  destruct errs as [|x [|y rest]]; simpl; try tauto; [|lia].
  intros [<-|[]] [<-|[]] Hne. congruence.
Qed.

Lemma length_appendIf (cond : bool) (e : ConfigError) (errs : list ConfigError) :
  (length (appendIf cond e errs) <= S (length errs))%nat.
Proof.
  unfold appendIf. destruct cond; [|lia].
  rewrite List.length_app. simpl. lia.
Qed.

Lemma filter_appendIf (cond : bool) (e : ConfigError) (errs : list ConfigError) :
  isNuisanceError e = false ->
  List.filter isNuisanceError (appendIf cond e errs)
  = List.filter isNuisanceError errs.
Proof.
  intros He. unfold appendIf. destruct cond; [|reflexivity].
  rewrite List.filter_app. simpl. rewrite He. apply List.app_nil_r.
Qed.

Lemma compileNuisance_counts (names : list string) (regs : list Regexp)
    (errs : list ConfigError) :
  (length (fst (compileNuisance names regs errs))
   + length (List.filter isNuisanceError (snd (compileNuisance names regs errs)))
   = length regs + length (List.filter isNuisanceError errs) + length names)%nat /\
  (length (List.filter (fun e => negb (isNuisanceError e))
             (snd (compileNuisance names regs errs)))
   = length (List.filter (fun e => negb (isNuisanceError e)) errs))%nat.
Proof.
  revert regs errs. induction names as [|n rest IH]; intros regs errs; simpl.
  - lia.
  - destruct (Compile n) as [r|err].
    + destruct (IH (regs ++ [r]) errs) as [Hc Hl].
      rewrite List.length_app in Hc. simpl in Hc. lia.
    + destruct (IH regs (errs ++ [NuisanceRegexError n err])) as [Hc Hl].
      rewrite !List.filter_app, !List.length_app in *. simpl in *. lia.
Qed.

Lemma length_filter_le (q : ConfigError -> bool) (errs : list ConfigError) :
  (length (List.filter q errs) <= length errs)%nat.
Proof.
  induction errs as [|e errs IH]; simpl; [lia|].
  destruct (q e); simpl; lia.
Qed.

(** X6: [readConfig] returns no error exactly when the file opens and
    decodes and the configuration has a database file, a listen port
    within 1..65535, a TLS domain if the TLS port is positive, a base
    URL, valid sender and administrator addresses, a mail server, a mail
    port within 1..65535, cleanup thresholds that are not one positive
    and one not, at least one cleanup day for documents, and only
    nuisance expressions that compile. *)
Theorem readConfig_accepts_exactly (path : string) :
  snd (readConfig path) = [] <->
  exists f c, Open path = inl f /\ Decode f = (c, None) /\ accepted c.
Proof.
  split.
  - unfold readConfig.
    destruct (Open path) as [f|e]; [|discriminate].
    destruct (Decode f) as [c [e|]] eqn:Hd; [discriminate|].
    intros Hnil. exists f, c. split; [reflexivity|]. split; [exact Hd|].
    assert (Hno : forall e, ~ In e (snd (validate c)))
      by (intros e He; rewrite Hnil in He; exact He).
    unfold accepted. repeat apply conj.
    + intros Heq. apply String.eqb_eq in Heq.
      apply (Hno DatabaseFileRequired), In_validate. tauto.
    + destruct ((ListenPort c <? 1) || (65535 <? ListenPort c)) eqn:Hb.
      * exfalso. apply (Hno (PortInvalid (ListenPort c))), In_validate. tauto.
      * apply orb_false_elim in Hb. destruct Hb as [Hb _].
        apply Z.ltb_ge in Hb. exact Hb.
    + destruct ((ListenPort c <? 1) || (65535 <? ListenPort c)) eqn:Hb.
      * exfalso. apply (Hno (PortInvalid (ListenPort c))), In_validate. tauto.
      * apply orb_false_elim in Hb. destruct Hb as [_ Hb].
        apply Z.ltb_ge in Hb. exact Hb.
    + intros Hpos Heq. apply Z.ltb_lt in Hpos. apply String.eqb_eq in Heq.
      assert ((0 <? TLSListenPort c) && String.eqb (TLSDomain c) "" = true) as Hb
        by (now rewrite Hpos, Heq).
      apply (Hno TLSDomainRequired), In_validate. tauto.
    + intros Heq. apply String.eqb_eq in Heq.
      apply (Hno BaseURLRequired), In_validate. tauto.
    + destruct (ValidateAddress (FromAddress (MailConfig c))) eqn:Hv; [reflexivity|].
      exfalso.
      assert (negb (ValidateAddress (FromAddress (MailConfig c))) = true) as Hb
        by (now rewrite Hv).
      apply (Hno (FromAddressInvalid (FromAddress (MailConfig c)))), In_validate.
      tauto.
    + destruct (ValidateAddress (ServerAdmin c)) eqn:Hv; [reflexivity|].
      exfalso.
      assert (negb (ValidateAddress (ServerAdmin c)) = true) as Hb
        by (now rewrite Hv).
      apply (Hno (ServerAdminInvalid (ServerAdmin c))), In_validate. tauto.
    + intros Heq. apply String.eqb_eq in Heq.
      apply (Hno MailServerRequired), In_validate. tauto.
    + destruct ((Port (MailConfig c) <? 1) || (65535 <? Port (MailConfig c))) eqn:Hb.
      * exfalso.
        apply (Hno (MailPortInvalid (Port (MailConfig c)))), In_validate. tauto.
      * apply orb_false_elim in Hb. destruct Hb as [Hb _].
        apply Z.ltb_ge in Hb. exact Hb.
    + destruct ((Port (MailConfig c) <? 1) || (65535 <? Port (MailConfig c))) eqn:Hb.
      * exfalso.
        apply (Hno (MailPortInvalid (Port (MailConfig c)))), In_validate. tauto.
      * apply orb_false_elim in Hb. destruct Hb as [_ Hb].
        apply Z.ltb_ge in Hb. exact Hb.
    + intros [[Hi Hu]|[Hu Hi]].
      * assert ((0 <? InactiveMonthsCleanup c)
                && (UnverifiedMonthsCleanup c <=? 0) = true) as Hb.
        { apply andb_true_intro. split; [apply Z.ltb_lt|apply Z.leb_le]; lia. }
        apply (Hno InactiveNeedsUnverified), In_validate. tauto.
      * assert ((0 <? UnverifiedMonthsCleanup c)
                && (InactiveMonthsCleanup c <=? 0) = true) as Hb.
        { apply andb_true_intro. split; [apply Z.ltb_lt|apply Z.leb_le]; lia. }
        apply (Hno UnverifiedNeedsInactive), In_validate. tauto.
    + destruct (PDFDaysCleanup c <? 1) eqn:Hb.
      * exfalso. apply (Hno PDFDaysCleanupRequired), In_validate. tauto.
      * apply Z.ltb_ge in Hb. exact Hb.
    + intros n Hin. destruct (Compile n) as [r|err] eqn:Hc; [now exists r|].
      exfalso. apply (Hno (NuisanceRegexError n err)), In_validate.
      right. exists n, err. auto.
  - intros (f & c & Ho & Hd & Hacc).
    rewrite (readConfig_decoded path f c Ho Hd).
    destruct (snd (validate c)) as [|e rest] eqn:Herrs; [reflexivity|].
    exfalso.
    assert (Hin : In e (snd (validate c))) by (rewrite Herrs; now left).
    destruct Hacc as (Hdb & Hlp & Htls & Hurl & Hfrom & Hadm & Hsrv & Hmp
                      & Hpair & Hpdf & Hnames).
    apply In_validate in Hin.
    destruct Hin as [Hin|(n & err & Hn & Hc & _)];
      [|destruct (Hnames n Hn) as [r Hr]; congruence].
    destruct Hin as
      [[[[[[[[[[[[[[]|[H1 _]]|[H2 _]]|[H3 _]]|[H4 _]]|[H5 _]]|[H6 _]]
            |[H7 _]]|[H8 _]]|[H9 _]]|[H10 _]]|[H11 _]]|[H12 _]]|[H13 _]].
    + apply String.eqb_eq in H1. congruence.
    + apply orb_prop in H2. destruct H2 as [H2|H2]; apply Z.ltb_lt in H2; lia.
    + apply andb_prop in H3. destruct H3 as [_ H3]. apply Z.ltb_lt in H3. lia.
    + apply andb_prop in H4. destruct H4 as [H4 H4'].
      apply Z.ltb_lt in H4. apply String.eqb_eq in H4'. now apply Htls.
    + apply String.eqb_eq in H5. congruence.
    + rewrite Hfrom in H6. discriminate.
    + rewrite Hadm in H7. discriminate.
    + apply String.eqb_eq in H8. congruence.
    + apply Z.eqb_eq in H9. lia.
    + apply orb_prop in H10. destruct H10 as [H10|H10]; apply Z.ltb_lt in H10; lia.
    + apply andb_prop in H11. destruct H11 as [Hi Hu].
      apply Z.ltb_lt in Hi. apply Z.leb_le in Hu. apply Hpair. left. auto.
    + apply andb_prop in H12. destruct H12 as [Hu Hi].
      apply Z.ltb_lt in Hu. apply Z.leb_le in Hi. apply Hpair. right. auto.
    + apply Z.ltb_lt in H13. lia.
Qed.

(** X7: a mail port left at zero is reported twice: [readConfig] returns
    the "port is required" error exactly when the port is 0, and then
    the "port is invalid" error for 0 as well, so at least two errors. *)
Theorem readConfig_mail_port_zero_twice (path : string) (f : File)
    (c : ServerConfig) :
  Open path = inl f ->
  Decode f = (c, None) ->
  let errs := snd (readConfig path) in
  (In MailPortRequired errs <-> Port (MailConfig c) = 0) /\
  (In MailPortRequired errs ->
     In (MailPortInvalid 0) errs /\ (2 <= length errs)%nat).
Proof.
  intros Ho Hd errs. subst errs. rewrite (readConfig_decoded path f c Ho Hd).
  assert (Hiff : In MailPortRequired (snd (validate c)) <-> Port (MailConfig c) = 0).
  { rewrite In_validate. split.
    - intros [Hin|(n & err & _ & _ & He)]; [|discriminate He].
      repeat (destruct Hin as [Hin|[Hb He]];
              [|try discriminate He; now apply Z.eqb_eq in Hb]).
      destruct Hin.
    - intros Hz. apply Z.eqb_eq in Hz. tauto. }
  split; [exact Hiff|].
  intros Hreq. pose proof (proj1 Hiff Hreq) as Hz.
  assert (Hinv : In (MailPortInvalid 0) (snd (validate c))).
  { assert (Hany : In (MailPortInvalid (Port (MailConfig c))) (snd (validate c))).
    { apply In_validate.
      assert ((Port (MailConfig c) <? 1) || (65535 <? Port (MailConfig c)) = true)
        as Hb by (rewrite Hz; reflexivity).
      tauto. }
    rewrite Hz in Hany. exact Hany. }
  split; [exact Hinv|].
  apply (two_errors _ MailPortRequired (MailPortInvalid 0));
    [exact Hreq | exact Hinv | discriminate].
Qed.

(** X8: the TLS port range error never comes alone and never names the
    TLS port: when [readConfig] returns it, the number in it is the
    plain listen port, that port is above 65535, and the listen port
    range error for the same number is returned too. *)
Theorem readConfig_tls_range_error_names_listen_port (path : string) (f : File)
    (c : ServerConfig) (port : Z) :
  Open path = inl f ->
  Decode f = (c, None) ->
  In (TLSPortInvalid port) (snd (readConfig path)) ->
  port = ListenPort c /\ 65535 < port /\ 1 <= TLSListenPort c /\
  In (PortInvalid port) (snd (readConfig path)).
Proof.
  intros Ho Hd. rewrite (readConfig_decoded path f c Ho Hd). intros Hin.
  assert (Hfacts : port = ListenPort c /\ 65535 < port /\ 1 <= TLSListenPort c).
  { apply In_validate in Hin.
    destruct Hin as [Hin|(n & err & _ & _ & He)]; [|discriminate He].
    repeat (destruct Hin as [Hin|[Hb He]];
            [|try discriminate He;
              injection He as ->; apply andb_prop in Hb; destruct Hb as [Hb1 Hb2];
              apply Z.leb_le in Hb1; apply Z.ltb_lt in Hb2; auto]).
    destruct Hin. }
  destruct Hfacts as (-> & Hbig & Htls). repeat split; try assumption.
  apply In_validate.
  assert ((ListenPort c <? 1) || (65535 <? ListenPort c) = true) as Hb.
  { apply orb_true_intro. right. now apply Z.ltb_lt. }
  tauto.
Qed.

(** X9: every entry of [nuisance_job_names] ends as exactly one of a
    compiled expression and a nuisance error: the compiled expressions
    of the returned configuration and the nuisance errors add up to the
    expressions the configuration came with and the entries; and of the
    errors returned at most thirteen are not nuisance errors. *)
Theorem readConfig_counts_nuisance_entries (path : string) (f : File)
    (c : ServerConfig) :
  Open path = inl f ->
  Decode f = (c, None) ->
  let r := readConfig path in
  (length (nuisanceJobRegex (fst r))
   + length (List.filter isNuisanceError (snd r))
   = length (nuisanceJobRegex c) + length (NuisanceJobNames c))%nat /\
  (length (List.filter (fun e => negb (isNuisanceError e)) (snd r)) <= 13)%nat.
Proof.
  intros Ho Hd r. subst r. rewrite (readConfig_decoded path f c Ho Hd).
  unfold validate. cbv zeta. cbn [fst snd set_nuisanceJobRegex nuisanceJobRegex].
  match goal with
  | |- context [compileNuisance ?names ?regs ?errs] =>
      destruct (compileNuisance_counts names regs errs) as [Hcount Hother];
      assert (Hpre : (length errs <= 13)%nat /\ List.filter isNuisanceError errs = []);
      [|pose proof (length_filter_le (fun e => negb (isNuisanceError e)) errs)
          as Hfew]
  end.
  { split.
    - repeat (etransitivity; [apply length_appendIf|]; apply le_n_S).
      simpl. lia.
    - rewrite !filter_appendIf by reflexivity. reflexivity. }
  destruct Hpre as [Hpre Hnone]. rewrite Hnone in Hcount. simpl in Hcount.
  split; lia.
Qed.

End ReadConfig.

(** ** A configuration to evaluate with *)

(** A stand-in for the libraries: an address is valid when it holds an
    [@], the expression ["("] does not compile and any other does (a
    compiled expression is its source), and the file at any path decodes
    to the configuration given. *)
Definition hasAt (s : string) : bool :=
  GoStrings.any_byte (Ascii.eqb "@") s.

Definition compileStub (s : string) : string + string :=
  if String.eqb s "(" then inr "missing closing )"%string else inl s.

Definition readFrom (c : @ServerConfig string) (path : string)
  : @ServerConfig string * list (@ConfigError string) :=
  readConfig hasAt compileStub (fun _ => inl c) (fun f => (f, None)) path.

Definition sample (tls : Z) (domain : string) (inactive unverified : Z)
    (names : list string) : @ServerConfig string :=
  {| DatabaseFile := "virtual1403.db"; CreateAdmin := ""; FontFile := "";
     ListenPort := 1403; TLSListenPort := tls; TLSDomain := domain;
     BaseURL := "http://localhost:1403";
     MailConfig := {| FromAddress := "printer@example.com";
                      Server := "smtp.example.com"; Port := 25 |};
     QuotaJobs := 10; QuotaPages := 100; QuotaPeriod := 1;
     MaxLinesPerJob := 5000; ConcurrentPrintJobs := 2;
     InactiveMonthsCleanup := inactive;
     UnverifiedMonthsCleanup := unverified; PDFDaysCleanup := 7;
     NuisanceJobNames := names; nuisanceJobRegex := [];
     ServerAdmin := "admin@example.com" |}.

(** C3 in the specification's words fails: with [inactive_months_cleanup] at -1 and
    [unverified_months_cleanup] at 0 the thresholds are neither both zero
    nor both positive, and [readConfig] returns no error at all. *)
Lemma negative_threshold_is_accepted :
  let c := sample 0 "" (-1) 0 [] in
  ~ bothZeroOrBothPositive c /\ snd (readFrom c "server.yaml") = [].
Proof.
  split; [|reflexivity].
  unfold bothZeroOrBothPositive. simpl. lia.
Qed.

Lemma readConfig_threshold_pairing_witness :
  let c := sample 0 "" 6 0 [] in
  onePositive c /\
  snd (readFrom c "server.yaml") <> [] /\
  exists e, In e (snd (readFrom c "server.yaml")) /\ pairingError e.
Proof.
  assert (Hone : onePositive (sample 0 "" 6 0 [])).
  { left. simpl. lia. }
  split; [exact Hone|].
  exact (proj1 (readConfig_threshold_pairing hasAt compileStub
                  (fun _ => inl (sample 0 "" 6 0 [])) (fun f => (f, None))
                  "server.yaml" (sample 0 "" 6 0 []) (sample 0 "" 6 0 [])
                  eq_refl eq_refl) Hone).
Defined.

Lemma readConfig_nuisance_patterns_witness :
  let c := sample 0 "" 0 0 ["^TESTPRINT$"; "("; "^BANNER"]%string in
  snd (readFrom c "server.yaml") <> [] /\
  In (NuisanceRegexError "("%string "missing closing )"%string) (snd (readFrom c "server.yaml")) /\
  nuisanceJobRegex (fst (readFrom c "server.yaml"))
    = ["^TESTPRINT$"; "^BANNER"]%string.
Proof.
  pose proof (readConfig_nuisance_patterns hasAt compileStub
                (fun _ => inl (sample 0 "" 0 0 ["^TESTPRINT$"; "("; "^BANNER"]%string))
                (fun f => (f, None)) "server.yaml" _ _ eq_refl eq_refl)
    as (Hfail & _ & Hregs).
  destruct (Hfail "("%string "missing closing )"%string) as [Hne Hin].
  { simpl. tauto. }
  { reflexivity. }
  split; [exact Hne|]. split; [exact Hin|]. exact Hregs.
Defined.

(** [tls_listen_port = 70000] with a TLS domain passes validation. *)
Lemma readConfig_tls_port_range_unchecked_witness :
  let c := sample 70000 "print.example.com" 0 0 [] in
  1 <= ListenPort c <= 65535 /\
  (forall port, ~ In (TLSPortInvalid port) (snd (readFrom c "server.yaml"))) /\
  snd (readFrom c "server.yaml") = [].
Proof.
  assert (Hport : 1 <= ListenPort (sample 70000 "print.example.com" 0 0 []) <= 65535).
  { simpl. lia. }
  split; [exact Hport|]. split; [|reflexivity].
  exact (proj1 (readConfig_tls_port_range_unchecked hasAt compileStub
                  (fun _ => inl (sample 70000 "print.example.com" 0 0 []))
                  (fun f => (f, None)) "server.yaml" _ _ eq_refl eq_refl Hport)).
Defined.

(** The sample with its ports chosen. *)
Definition samplePorts (listen tls mail : Z) (names : list string)
  : @ServerConfig string :=
  {| DatabaseFile := "virtual1403.db"; CreateAdmin := ""; FontFile := "";
     ListenPort := listen; TLSListenPort := tls;
     TLSDomain := "print.example.com";
     BaseURL := "http://localhost:1403";
     MailConfig := {| FromAddress := "printer@example.com";
                      Server := "smtp.example.com"; Port := mail |};
     QuotaJobs := 10; QuotaPages := 100; QuotaPeriod := 1;
     MaxLinesPerJob := 5000; ConcurrentPrintJobs := 2;
     InactiveMonthsCleanup := 0; UnverifiedMonthsCleanup := 0;
     PDFDaysCleanup := 7;
     NuisanceJobNames := names; nuisanceJobRegex := [];
     ServerAdmin := "admin@example.com" |}.

Lemma readConfig_mail_port_zero_twice_witness :
  let c := samplePorts 1403 0 0 [] in
  snd (readFrom c "server.yaml") = [MailPortRequired; MailPortInvalid 0] /\
  (In MailPortRequired (snd (readFrom c "server.yaml")) <-> Port (MailConfig c) = 0).
Proof.
  split; [reflexivity|].
  exact (proj1 (readConfig_mail_port_zero_twice hasAt compileStub
                  (fun _ => inl (samplePorts 1403 0 0 [])) (fun f => (f, None))
                  "server.yaml" _ _ eq_refl eq_refl)).
Defined.

Lemma readConfig_tls_range_error_names_listen_port_witness :
  let c := samplePorts 70000 443 25 [] in
  snd (readFrom c "server.yaml") = [PortInvalid 70000; TLSPortInvalid 70000] /\
  70000 = ListenPort c /\ 65535 < 70000 /\ 1 <= TLSListenPort c /\
  In (PortInvalid 70000) (snd (readFrom c "server.yaml")).
Proof.
  split; [reflexivity|].
  refine (readConfig_tls_range_error_names_listen_port hasAt compileStub
            (fun _ => inl (samplePorts 70000 443 25 [])) (fun f => (f, None))
            "server.yaml" _ _ 70000 eq_refl eq_refl _).
  simpl. tauto.
Defined.

Lemma readConfig_counts_nuisance_entries_witness :
  let c := samplePorts 1403 0 25 ["^TESTPRINT$"; "("; "^BANNER"; "("]%string in
  length (nuisanceJobRegex (fst (readFrom c "server.yaml"))) = 2%nat /\
  ((length (nuisanceJobRegex (fst (readFrom c "server.yaml")))
    + length (List.filter isNuisanceError (snd (readFrom c "server.yaml")))
    = length (nuisanceJobRegex c) + length (NuisanceJobNames c))%nat /\
   (length (List.filter (fun e => negb (isNuisanceError e))
              (snd (readFrom c "server.yaml"))) <= 13)%nat).
Proof.
  split; [reflexivity|].
  exact (readConfig_counts_nuisance_entries hasAt compileStub
           (fun _ => inl (samplePorts 1403 0 25
                            ["^TESTPRINT$"; "("; "^BANNER"; "("]%string))
           (fun f => (f, None)) "server.yaml" _ _ eq_refl eq_refl).
Defined.

(** The sample passes, and stops passing without a database file. *)
Example readConfig_accepts_the_sample :
  snd (readFrom (samplePorts 1403 443 25 ["^TESTPRINT$"]%string) "server.yaml") = [] /\
  snd (readFrom (set_TLSListenPort zeroConfig 0) "server.yaml") <> [].
Proof. split; [reflexivity|discriminate]. Qed.

End Config.

(* ===================================================================== *)
(** * createAdmin *)
(* ===================================================================== *)

Module Accounts.
Import GoStrings.

(** [hex.EncodeToString]: two digits of ["0123456789abcdef"] for each
    byte, the high half first. *)
Definition hextable : string := "0123456789abcdef".

Definition hexDigit (n : nat) : ascii :=
  match String.get n hextable with
  | Some c => c
  | None => "0"%char
  end.

Fixpoint EncodeToString (src : list Byte.byte) : string :=
  match src with
  | [] => EmptyString
  | b :: rest =>
      String (hexDigit (Byte.to_nat b / 16))
        (String (hexDigit (Byte.to_nat b mod 16)) (EncodeToString rest))
  end.

Definition isHexDigit (c : ascii) : bool :=
  (Nat.leb 48 (nat_of_ascii c) && Nat.leb (nat_of_ascii c) 57)
  || (Nat.leb 97 (nat_of_ascii c) && Nat.leb (nat_of_ascii c) 102).

(** The value of a digit and the byte of two digits, to read an encoding
    back. *)
Definition hexValue (c : ascii) : nat :=
  let n := nat_of_ascii c in
  if Nat.leb 97 n then (n - 87)%nat else (n - 48)%nat.

Definition byteOfDigits (hi lo : ascii) : option Byte.byte :=
  Byte.of_nat (16 * hexValue hi + hexValue lo).

Section CreateAdmin.

(** The database handle with its errors, the error of the random source,
    and the fields of [model.User] that the sources do not name. *)
Context {DB DBError RandError Hidden : Type}.
Context {DBError_eq_dec : EqDecision DBError}.

(** [model.User], with the fields [createAdmin] sets and the users page
    shows. Times are in seconds. *)
Record User : Type := {
  Email : string;
  FullName : string;
  Room : string;
  AccessKey : string;
  JobCount : Z;
  PageCount : Z;
  LastJob : Z;
  Verified : bool;
  Enabled : bool;
  DisableEmailDelivery : bool;
  AllowNuisanceJobs : bool;
  Unlimited : bool;
  Admin : bool;
  private : Hidden
}.

(** [db.ErrNotFound], the database calls of [a.db] and [model.NewUser]. *)
Variable ErrNotFound : DBError.
Variable GetUser : DB -> string -> User * option DBError.
Variable SaveUser : DB -> User -> DB * option DBError.
Variable NewUser : string -> string -> User.

(** What [log.Printf] is called with. *)
Inductive LogLine : Type :=
| AdminExists (email : string)
| AdminCreated (email pwstring accessKey : string).

(** How a call ends: it returns an error or [nil], or panics. *)
Inductive Result : Type :=
| Returned (err : option DBError)
| Panicked (v : option RandError).

(** The administrator's settings on a new user. *)
Definition asAdministrator (u : User) : User :=
  {| Email := Email u; FullName := "Administrator"; Room := "ADM";
     AccessKey := AccessKey u; JobCount := JobCount u;
     PageCount := PageCount u; LastJob := LastJob u;
     Verified := true; Enabled := true;
     DisableEmailDelivery := DisableEmailDelivery u;
     AllowNuisanceJobs := AllowNuisanceJobs u; Unlimited := Unlimited u;
     Admin := true; private := private u |}.

(** [err != db.ErrNotFound] *)
Definition isNot (err : option DBError) : bool :=
  match err with
  | Some e => negb (bool_decide (e = ErrNotFound))
  | None => true
  end.

(** [createAdmin] on the database [d]. [rnd] is what the one call
    [rand.Read(pwbytes)] makes of the 16-byte buffer: its content
    afterwards, the count and the error it returns. The result is the
    database, the lines logged, and how the call ends. *)
Definition createAdmin (d : DB) (rnd : list Byte.byte * Z * option RandError)
    (email : string) : DB * list LogLine * Result :=
  (* Only proceed if admin user doesn't already exist *)
  let err := snd (GetUser d email) in
  if isNot err then (d, [AdminExists email], Returned None)
  else
    let '(pwbytes, n, rerr) := rnd in
    if (match rerr with Some _ => true | None => false end) || negb (n =? 128 / 8)
    then (d, [], Panicked rerr)
    else
      let pwstring := EncodeToString pwbytes in
      let u := asAdministrator (NewUser email pwstring) in
      match SaveUser d u with
      | (d', Some e) => (d', [], Returned (Some e))
      | (d', None) =>
          (d', [AdminCreated email pwstring (AccessKey u)], Returned None)
      end.

(** ** The password *)

Lemma EncodeToString_length (src : list Byte.byte) :
  String.length (EncodeToString src) = (2 * length src)%nat.
Proof. induction src as [|b rest IH]; simpl; [reflexivity|]. rewrite IH. lia. Qed.

Lemma hexDigit_of_byte (b : Byte.byte) :
  isHexDigit (hexDigit (Byte.to_nat b / 16)) = true /\
  isHexDigit (hexDigit (Byte.to_nat b mod 16)) = true /\
  byteOfDigits (hexDigit (Byte.to_nat b / 16)) (hexDigit (Byte.to_nat b mod 16))
  = Some b.
Proof. destruct b; vm_compute; repeat split. Qed.

Lemma EncodeToString_digits (src : list Byte.byte) :
  all_bytes isHexDigit (EncodeToString src) = true.
Proof.
  induction src as [|b rest IH]; [reflexivity|].
  cbn [EncodeToString all_bytes].
  destruct (hexDigit_of_byte b) as (Hhi & Hlo & _).
  now rewrite Hhi, Hlo, IH.
Qed.

Lemma EncodeToString_inj (a b : list Byte.byte) :
  EncodeToString a = EncodeToString b -> a = b.
Proof.
  revert b. induction a as [|x a IH]; intros [|y b];
    cbn [EncodeToString]; try discriminate; [reflexivity|].
  intros Heq.
  destruct (hexDigit_of_byte x) as (_ & _ & Hx).
  destruct (hexDigit_of_byte y) as (_ & _ & Hy).
  remember (hexDigit (Byte.to_nat x / 16)) as xhi.
  remember (hexDigit (Byte.to_nat x mod 16)) as xlo.
  remember (hexDigit (Byte.to_nat y / 16)) as yhi.
  remember (hexDigit (Byte.to_nat y mod 16)) as ylo.
  injection Heq as Hhi Hlo Hrest.
  rewrite Hhi, Hlo, Hy in Hx. injection Hx as ->.
  f_equal. now apply IH.
Qed.

(** X10: [createAdmin] on an address the database does not know, with a
    random source that fills the buffer, saves the user that [NewUser]
    makes for the address and the password, turned into a verified and
    enabled administrator named "Administrator" in room "ADM" with each
    of its other fields (address, access key, job and page counts, last
    job, the delivery, nuisance and unlimited flags and the fields the
    sources do not name) as [NewUser] made it, and logs the address, the
    password and the access key. The password is the hexadecimal form of the 16 random
    bytes: 32 digits out of [0-9a-f], from which the bytes can be read
    back, so different bytes give different passwords. *)
Theorem createAdmin_new_account (d : DB) (pwbytes : list Byte.byte)
    (email : string) :
  snd (GetUser d email) = Some ErrNotFound ->
  length pwbytes = 16%nat ->
  let pwstring := EncodeToString pwbytes in
  let u := asAdministrator (NewUser email pwstring) in
  createAdmin d (pwbytes, 16, None) email
  = match SaveUser d u with
    | (d', Some e) => (d', [], Returned (Some e))
    | (d', None) =>
        (d', [AdminCreated email pwstring (AccessKey (NewUser email pwstring))],
         Returned None)
    end /\
  (Admin u = true /\ Verified u = true /\ Enabled u = true /\
   FullName u = "Administrator"%string /\ Room u = "ADM"%string /\
   Email u = Email (NewUser email pwstring) /\
   AccessKey u = AccessKey (NewUser email pwstring) /\
   JobCount u = JobCount (NewUser email pwstring) /\
   PageCount u = PageCount (NewUser email pwstring) /\
   LastJob u = LastJob (NewUser email pwstring) /\
   DisableEmailDelivery u = DisableEmailDelivery (NewUser email pwstring) /\
   AllowNuisanceJobs u = AllowNuisanceJobs (NewUser email pwstring) /\
   Unlimited u = Unlimited (NewUser email pwstring) /\
   private u = private (NewUser email pwstring)) /\
  String.length pwstring = 32%nat /\
  all_bytes isHexDigit pwstring = true /\
  (forall other, EncodeToString other = pwstring -> other = pwbytes).
Proof.
  intros Hnot Hlen pwstring u. split; [|split; [|split; [|split]]].
  - unfold createAdmin. rewrite Hnot. unfold isNot.
    rewrite bool_decide_eq_true_2 by reflexivity. reflexivity.
  - repeat split.
  - unfold pwstring. rewrite EncodeToString_length, Hlen. reflexivity.
  - apply EncodeToString_digits.
  - intros other Heq. now apply EncodeToString_inj.
Qed.

Lemma isNot_true (err : option DBError) :
  err <> Some ErrNotFound <-> isNot err = true.
Proof.
  destruct err as [e|]; simpl.
  - rewrite negb_true_iff, bool_decide_eq_false. split; congruence.
  - split; [reflexivity|discriminate].
Qed.

Lemma createAdmin_existing (d : DB) (rnd : list Byte.byte * Z * option RandError)
    (email : string) :
  snd (GetUser d email) <> Some ErrNotFound ->
  createAdmin d rnd email = (d, [AdminExists email], Returned None).
Proof.
  intros Hother. unfold createAdmin. now rewrite (proj1 (isNot_true _) Hother).
Qed.

(** X11: [createAdmin] leaves the database alone unless the lookup fails
    with [ErrNotFound] and the random source fills the buffer. An account
    that is found and a lookup that fails in any other way are both
    taken for an existing account: nothing is created and [nil] is
    returned. A failing or short random read panics before anything is
    saved. The only error [createAdmin] returns is that of [SaveUser]. *)
Theorem createAdmin_failures (d : DB) (rnd : list Byte.byte * Z * option RandError)
    (email : string) :
  (snd (GetUser d email) <> Some ErrNotFound ->
     createAdmin d rnd email = (d, [AdminExists email], Returned None)) /\
  (snd (GetUser d email) = Some ErrNotFound ->
     (snd rnd <> None \/ snd (fst rnd) <> 16) ->
     createAdmin d rnd email = (d, [], Panicked (snd rnd))) /\
  (forall e, snd (createAdmin d rnd email) = Returned (Some e) <->
     snd (GetUser d email) = Some ErrNotFound /\
     snd rnd = None /\ snd (fst rnd) = 16 /\
     snd (SaveUser d (asAdministrator
                        (NewUser email (EncodeToString (fst (fst rnd))))))
     = Some e).
Proof.
  destruct rnd as [[pwbytes n] rerr]. cbn [fst snd].
  split; [|split].
  - apply createAdmin_existing.
  - intros Hnot Hbad. unfold createAdmin. rewrite Hnot. unfold isNot.
    rewrite bool_decide_eq_true_2 by reflexivity. simpl negb. cbv iota.
    destruct rerr as [re|]; [reflexivity|].
    destruct Hbad as [Hbad|Hbad]; [congruence|].
    change (128 / 8) with 16.
    destruct (Z.eqb_spec n 16) as [->|_]; [congruence|reflexivity].
  - intros e. unfold createAdmin.
    destruct (isNot (snd (GetUser d email))) eqn:Hn.
    + split; [discriminate|]. intros (Hnot & _).
      apply isNot_true in Hn. contradiction.
    + assert (Hnot : snd (GetUser d email) = Some ErrNotFound).
      { destruct (snd (GetUser d email)) as [e'|]; [|discriminate Hn].
        simpl in Hn. apply negb_false_iff, bool_decide_eq_true in Hn.
        now subst e'. }
      change (128 / 8) with 16.
      destruct rerr as [re|]; simpl orb; cbv iota.
      * split; [discriminate|]. intros (_ & Hnone & _). discriminate.
      * destruct (Z.eqb_spec n 16) as [->|Hne]; simpl negb; cbv iota.
        -- destruct (SaveUser d _) as [d' [e'|]]; cbn [snd].
           ++ split; [intros [= ->]; auto|]. intros (_ & _ & _ & [= ->]).
              reflexivity.
           ++ split; [discriminate|]. intros (_ & _ & _ & Hs). discriminate.
        -- split; [discriminate|]. intros (_ & _ & Hn16 & _). contradiction.
Qed.

(** X12: once [createAdmin] has returned without an error, a second call
    for the same address changes nothing, whatever the random source
    gives then: it logs that the account exists and returns [nil]. This
    holds for every database in which an account that was saved is no
    longer reported as not found under its address, with user records
    that carry the address they were made for. *)
Theorem createAdmin_twice (d d' : DB) (rnd rnd' : list Byte.byte * Z * option RandError)
    (email : string) (log : list LogLine) :
  (forall d0 u d1, SaveUser d0 u = (d1, None) ->
     snd (GetUser d1 (Email u)) <> Some ErrNotFound) ->
  (forall e pw, Email (NewUser e pw) = e) ->
  createAdmin d rnd email = (d', log, Returned None) ->
  createAdmin d' rnd' email = (d', [AdminExists email], Returned None).
Proof.
  intros Hsaved Hemail Hfirst.
  apply createAdmin_existing.
  unfold createAdmin in Hfirst.
  destruct (isNot (snd (GetUser d email))) eqn:Hn.
  - injection Hfirst as <- _. 
    destruct (snd (GetUser d email)) as [e|]; [|discriminate].
    simpl in Hn. apply negb_true_iff, bool_decide_eq_false in Hn. congruence.
  - destruct rnd as [[pwbytes n] rerr].
    destruct ((match rerr with Some _ => true | None => false end)
              || negb (n =? 128 / 8)); [discriminate|].
    destruct (SaveUser d _) as [d1 [e|]] eqn:Hsave; [discriminate|].
    injection Hfirst as <- _.
    specialize (Hsaved _ _ _ Hsave). simpl in Hsaved.
    now rewrite Hemail in Hsaved.
Qed.

End CreateAdmin.

(** ** A database to evaluate with *)

(** Users in a list, the last saved first; a lookup fails with
    [NotFound] or, for the address ["broken"], with [IOError]. *)
Inductive MemErr : Type := NotFound | IOError.

Definition MemErr_eq_dec : EqDecision MemErr.
Proof. intros a b. unfold Decision. decide equality. Defined.

Definition memNew (email pwstring : string) : @User unit :=
  {| Email := email; FullName := ""; Room := ""; AccessKey := "key";
     JobCount := 0; PageCount := 0; LastJob := 0;
     Verified := false; Enabled := false; DisableEmailDelivery := false;
     AllowNuisanceJobs := false; Unlimited := false; Admin := false;
     private := tt |}.

Definition memGet (d : list (@User unit)) (email : string)
  : @User unit * option MemErr :=
  if String.eqb email "broken" then (memNew "" "", Some IOError)
  else
    match List.find (fun u => String.eqb (Email u) email) d with
    | Some u => (u, None)
    | None => (memNew "" "", Some NotFound)
    end.

Definition memSave (d : list (@User unit)) (u : @User unit)
  : list (@User unit) * option MemErr :=
  (u :: d, None).

Definition sixteen : list Byte.byte :=
  [Byte.x00; Byte.x01; Byte.x7f; Byte.x80; Byte.xff; Byte.x10; Byte.x0a;
   Byte.xa0; Byte.x55; Byte.xaa; Byte.x12; Byte.x34; Byte.x56; Byte.x78;
   Byte.x9a; Byte.xbc].

Definition memCreate :=
  createAdmin (RandError := unit) (DBError_eq_dec := MemErr_eq_dec) NotFound memGet memSave memNew.

Lemma memSave_found (d0 : list (@User unit)) (u : @User unit)
    (d1 : list (@User unit)) :
  memSave d0 u = (d1, None) -> snd (memGet d1 (Email u)) <> Some NotFound.
Proof.
  intros [= <-]. unfold memGet.
  destruct (String.eqb (Email u) "broken"); [discriminate|].
  simpl. rewrite String.eqb_refl. discriminate.
Qed.

Lemma createAdmin_new_account_witness :
  snd (memGet [] "root@example.com") = Some NotFound /\
  length sixteen = 16%nat /\
  memCreate [] (sixteen, 16, None) "root@example.com"
  = ([asAdministrator
        (memNew "root@example.com" "00017f80ff100aa055aa123456789abc")],
     [AdminCreated "root@example.com" "00017f80ff100aa055aa123456789abc" "key"],
     Returned None) /\
  String.length (EncodeToString sixteen) = 32%nat.
Proof.
  split; [reflexivity|]. split; [reflexivity|].
  destruct (createAdmin_new_account (RandError := unit) (DBError_eq_dec := MemErr_eq_dec)
              NotFound memGet memSave memNew [] sixteen "root@example.com"
              eq_refl eq_refl) as (Hrun & _ & Hlen & _).
  split; [exact Hrun | exact Hlen].
Defined.

Lemma createAdmin_twice_witness :
  memCreate [] (sixteen, 16, None) "root@example.com"
  = ([asAdministrator
        (memNew "root@example.com" "00017f80ff100aa055aa123456789abc")],
     [AdminCreated "root@example.com" "00017f80ff100aa055aa123456789abc" "key"],
     Returned None) /\
  memCreate
    [asAdministrator (memNew "root@example.com" "00017f80ff100aa055aa123456789abc")]
    ([], 0, Some tt) "root@example.com"
  = ([asAdministrator
        (memNew "root@example.com" "00017f80ff100aa055aa123456789abc")],
     [AdminExists "root@example.com"], Returned None).
Proof.
  split; [reflexivity|].
  exact (createAdmin_twice (RandError := unit) (DBError_eq_dec := MemErr_eq_dec)
           NotFound memGet memSave memNew
           [] _ (sixteen, 16, None) ([], 0, Some tt) "root@example.com" _
           memSave_found (fun _ _ => eq_refl) eq_refl).
Defined.

(** A lookup that fails for another reason than [NotFound] passes for an
    existing account; a short random read panics. *)
Example createAdmin_edges :
  memCreate [] (sixteen, 16, None) "broken"
    = ([], [AdminExists "broken"], Returned None) /\
  memCreate [] (sixteen, 8, None) "root@example.com"
    = ([], [], Panicked None).
Proof. split; reflexivity. Qed.

End Accounts.

(* ===================================================================== *)
(** * The Quota Tracker and the render step *)
(* ===================================================================== *)

Module Quota.

(** The quota settings of the configuration: job and page counts and the
    length of the period in days. *)
Record Limits : Type := {
  QuotaJobs : Z;
  QuotaPages : Z;
  QuotaPeriod : Z
}.

(** The part of an account the tracker works on. Times are in seconds. *)
Record Account : Type := {
  unlimited : bool;
  window_start : Z;
  job_count : Z;
  page_count : Z
}.

Definition day : Z := 86400.

Inductive Basis : Type := JobBased | PageBased.

Inductive JobError : Type :=
| QuotaExceeded (basis : Basis)
| RenderError.

(** A reservation handle remembers whether a job was counted for it. *)
Inductive Handle : Type := Granted (counted : bool).

Inductive Outcome : Type :=
| Reserved (h : Handle)
| Failed (e : JobError).

(** [now - window_start > QuotaPeriod days] *)
Definition expired (cfg : Limits) (now : Z) (a : Account) : bool :=
  QuotaPeriod cfg * day <? now - window_start a.

Definition reset (now : Z) (a : Account) : Account :=
  {| unlimited := unlimited a; window_start := now;
     job_count := 0; page_count := 0 |}.

Definition add_jobs (n : Z) (a : Account) : Account :=
  {| unlimited := unlimited a; window_start := window_start a;
     job_count := job_count a + n; page_count := page_count a |}.

Definition add_pages (n : Z) (a : Account) : Account :=
  {| unlimited := unlimited a; window_start := window_start a;
     job_count := job_count a; page_count := page_count a + n |}.

(** Modelled from the spec: the Quota Tracker's [Reserve] (section 4.4),
    whose source is not embedded here. "If [unlimited], grant immediately.
    Otherwise, if [now - window_start > QuotaPeriod] days, reset counters
    and [window_start = now]. If [job_count >= QuotaJobs], fail with
    [QuotaExceeded] (job-based) without mutating state. Otherwise
    increment [job_count] and return a reservation handle." An account
    that [Commit] left above [QuotaPages] is over quota, "and subsequent
    [Reserve] calls fail until the window rolls over". The reset of an
    expired window comes before the checks and stays when they fail. *)
Definition Reserve (cfg : Limits) (now : Z) (a : Account) : Account * Outcome :=
  if unlimited a then (a, Reserved (Granted false))
  else
    let a := if expired cfg now a then reset now a else a in
    if QuotaJobs cfg <=? job_count a then (a, Failed (QuotaExceeded JobBased))
    else if QuotaPages cfg <? page_count a then (a, Failed (QuotaExceeded PageBased))
    else (add_jobs 1 a, Reserved (Granted true)).

(** Modelled from the spec: [Commit] "adds [actual_pages] to
    [page_count]"; the job is delivered also when that passes
    [QuotaPages]. *)
Definition Commit (h : Handle) (actual_pages : Z) (a : Account) : Account :=
  add_pages actual_pages a.

(** Modelled from the spec: on a rendering failure the "quota reservation
    is rolled back ([job_count] decremented)". *)
Definition Rollback (h : Handle) (a : Account) : Account :=
  match h with
  | Granted true => add_jobs (-1) a
  | Granted false => a
  end.

(** What the rendering collaborator makes of a job: a document with its
    number of pages, or a failure. *)
Inductive Rendering : Type :=
| Rendered (document : list Byte.byte) (pages : Z)
| RenderFailed.

(** Modelled from the spec: a job past the nuisance filter, from the
    reservation to the document (sections 2 and 4.6): reserve, render,
    then commit the pages, or roll back and fail with [RenderError]. *)
Definition processJob (cfg : Limits) (now : Z) (r : Rendering) (a : Account)
  : Account * (list Byte.byte + JobError) :=
  match Reserve cfg now a with
  | (a1, Failed e) => (a1, inr e)
  | (a1, Reserved h) =>
      match r with
      | Rendered document pages => (Commit h pages a1, inl document)
      | RenderFailed => (Rollback h a1, inr RenderError)
      end
  end.

(** The operations of the tracker on one account, as the jobs of that
    account issue them one at a time under the account's lock, in any
    order: a rollback or a commit of one job may come after the
    reservation of another. *)
Inductive Op : Type :=
| OpReserve (now : Z)
| OpCommit (pages : Z)
| OpRollback.

Definition apply_op (cfg : Limits) (a : Account) (o : Op) : Account :=
  match o with
  | OpReserve now => fst (Reserve cfg now a)
  | OpCommit pages => Commit (Granted true) pages a
  | OpRollback => Rollback (Granted true) a
  end.

Definition run (cfg : Limits) (a : Account) (ops : list Op) : Account :=
  fold_left (apply_op cfg) ops a.

(** The times at which a job was counted, for reservations asked at the
    given times one after the other. *)
Fixpoint countedAt (cfg : Limits) (a : Account) (times : list Z) : list Z :=
  match times with
  | [] => []
  | now :: rest =>
      match Reserve cfg now a with
      | (a', Reserved _) => now :: countedAt cfg a' rest
      | (a', Failed _) => countedAt cfg a' rest
      end
  end.

(** The number of jobs of a log counted within the [QuotaPeriod]-day
    window that trails [now]. *)
Definition countedWithin (cfg : Limits) (now : Z) (log : list Z) : Z :=
  Z.of_nat (length (List.filter
    (fun t => (now - QuotaPeriod cfg * day <? t) && (t <=? now)) log)).

Fixpoint nondecreasing (times : list Z) : bool :=
  match times with
  | t :: ((u :: _) as rest) => (t <=? u) && nondecreasing rest
  | _ => true
  end.

(** C1 as the specification words it, over windows that trail any
    instant: for a fresh account that is not unlimited, however its
    reservations are timed. *)
Definition trailingWindowBound : Prop :=
  forall (cfg : Limits) (a : Account) (times : list Z) (now : Z),
    unlimited a = false ->
    0 <= QuotaJobs cfg -> 0 < QuotaPeriod cfg ->
    job_count a = 0 -> page_count a = 0 ->
    nondecreasing times = true ->
    countedWithin cfg now (countedAt cfg a times) <= QuotaJobs cfg.

(** A counted job in the history of an account: when it was counted, and
    whether it still is (its rendering has not failed). *)
Record Entry : Type := {
  counted_at : Z;
  live : bool
}.

(** What the jobs of one account do, one event at a time under the
    account's lock: a job asks for a reservation at a time, a rendered
    job commits its pages, or the rendering of the [j]-th counted job
    fails and its reservation is rolled back. *)
Inductive Event : Type :=
| EvReserve (now : Z)
| EvCommit (pages : Z)
| EvFail (j : nat).

(** Modelled from the spec: the tracker over a history of jobs, with the
    jobs it counted: [Reserve], [Commit] and the rollback of section 4.4
    and 4.6 applied event by event. A job fails at most once, and only a
    job that was counted can fail. *)
Definition happen (cfg : Limits) (st : Account * list Entry) (ev : Event)
  : Account * list Entry :=
  match ev with
  | EvReserve now =>
      match Reserve cfg now (fst st) with
      | (a', Reserved (Granted true)) =>
          (a', snd st ++ [{| counted_at := now; live := true |}])
      | (a', _) => (a', snd st)
      end
  | EvCommit pages => (Commit (Granted true) pages (fst st), snd st)
  | EvFail j =>
      match snd st !! j with
      | Some e =>
          if live e
          then (Rollback (Granted true) (fst st),
                <[j := {| counted_at := counted_at e; live := false |}]> (snd st))
          else st
      | None => st
      end
  end.

Definition history (cfg : Limits) (st : Account * list Entry) (evs : list Event)
  : Account * list Entry :=
  fold_left (happen cfg) evs st.

(** The jobs of a log that are still counted and were counted at or
    after [start]. *)
Definition liveSince (start : Z) (log : list Entry) : Z :=
  Z.of_nat (length (List.filter
    (fun e => live e && (start <=? counted_at e)) log)).

(** The times of the reservations of a history. *)
Fixpoint reserveTimes (evs : list Event) : list Z :=
  match evs with
  | [] => []
  | EvReserve now :: rest => now :: reserveTimes rest
  | _ :: rest => reserveTimes rest
  end.

(** Every job that fails in the history was counted in the window the
    account is in when it fails. *)
Fixpoint failsInWindow (cfg : Limits) (st : Account * list Entry)
    (evs : list Event) : bool :=
  match evs with
  | [] => true
  | ev :: rest =>
      match ev with
      | EvFail j =>
          match snd st !! j with
          | Some e => negb (live e) || (window_start (fst st) <=? counted_at e)
          | None => true
          end
      | _ => true
      end && failsInWindow cfg (happen cfg st ev) rest
  end.

(** ** The counters under the operations *)

Lemma Reserve_unlimited_flag (cfg : Limits) (now : Z) (a : Account) :
  unlimited (fst (Reserve cfg now a)) = unlimited a.
Proof.
  unfold Reserve. destruct (unlimited a) eqn:Hu; [exact Hu|].
  destruct (expired cfg now a); cbv zeta;
    destruct (QuotaJobs cfg <=? _); try destruct (QuotaPages cfg <? _);
    simpl; assumption.
Qed.

Lemma Reserve_within_quota (cfg : Limits) (now : Z) (a : Account) :
  unlimited a = false ->
  0 <= QuotaJobs cfg ->
  job_count a <= QuotaJobs cfg ->
  job_count (fst (Reserve cfg now a)) <= QuotaJobs cfg.
Proof.
  intros Hu Hq Hle. unfold Reserve. rewrite Hu.
  destruct (expired cfg now a); cbv zeta;
    destruct (QuotaJobs cfg <=? _) eqn:Hjobs;
    try destruct (QuotaPages cfg <? _);
    try apply Z.leb_gt in Hjobs; simpl in *; lia.
Qed.

Lemma apply_op_within_quota (cfg : Limits) (a : Account) (o : Op) :
  unlimited a = false ->
  0 <= QuotaJobs cfg ->
  job_count a <= QuotaJobs cfg ->
  unlimited (apply_op cfg a o) = false /\
  job_count (apply_op cfg a o) <= QuotaJobs cfg.
Proof.
  intros Hu Hq Hle. destruct o as [now|pages|]; simpl.
  - rewrite Reserve_unlimited_flag. auto using Reserve_within_quota.
  - auto.
  - split; [assumption|lia].
Qed.

Lemma run_within_quota (cfg : Limits) (ops : list Op) (a : Account) :
  unlimited a = false ->
  0 <= QuotaJobs cfg ->
  job_count a <= QuotaJobs cfg ->
  unlimited (run cfg a ops) = false /\
  job_count (run cfg a ops) <= QuotaJobs cfg.
Proof.
  intros Hu Hq. revert a Hu.
  induction ops as [|o ops IH]; intros a Hu Hle; [now split|].
  destruct (apply_op_within_quota cfg a o Hu Hq Hle) as [Hu' Hle'].
  exact (IH _ Hu' Hle').
Qed.

(** A reservation on an expired window starts the window afresh. *)
Lemma Reserve_expired (cfg : Limits) (now : Z) (a : Account) :
  unlimited a = false ->
  expired cfg now a = true ->
  Reserve cfg now a =
    if QuotaJobs cfg <=? 0
    then (reset now a, Failed (QuotaExceeded JobBased))
    else if QuotaPages cfg <? 0
    then (reset now a, Failed (QuotaExceeded PageBased))
    else (add_jobs 1 (reset now a), Reserved (Granted true)).
Proof. intros Hu He. unfold Reserve. now rewrite Hu, He. Qed.

(** ** The jobs counted since the window start *)

Lemma liveSince_nil (start : Z) : liveSince start [] = 0.
Proof. reflexivity. Qed.

Lemma liveSince_snoc (start : Z) (log : list Entry) (e : Entry) :
  liveSince start (log ++ [e])
  = liveSince start log + (if live e && (start <=? counted_at e) then 1 else 0).
Proof.
  unfold liveSince. rewrite List.filter_app, List.length_app. simpl.
  destruct (live e && (start <=? counted_at e)); simpl; lia.
Qed.

Lemma liveSince_nonneg (start : Z) (log : list Entry) : 0 <= liveSince start log.
Proof. unfold liveSince. lia. Qed.

(** Nothing counted before [start] is counted since. *)
Lemma liveSince_before (start : Z) (log : list Entry) :
  Forall (fun e => counted_at e < start) log -> liveSince start log = 0.
Proof.
  unfold liveSince. induction 1 as [|e log He _ IH]; [reflexivity|].
  simpl. destruct (Z.leb_spec start (counted_at e)); [lia|].
  rewrite andb_false_r. exact IH.
Qed.

(** A failing job that was counted since [start] is one job less. *)
Lemma liveSince_fail (start : Z) (log : list Entry) (j : nat) (e : Entry) :
  log !! j = Some e -> live e = true -> start <= counted_at e ->
  liveSince start (<[j := {| counted_at := counted_at e; live := false |}]> log)
  = liveSince start log - 1.
Proof.
  unfold liveSince. revert j.
  induction log as [|x log IH]; intros [|j] Hj Hlive Hat; try discriminate.
  - simpl in Hj. injection Hj as ->. simpl. rewrite Hlive.
    apply Z.leb_le in Hat. rewrite Hat. simpl. lia.
  - simpl in Hj. specialize (IH j Hj Hlive Hat). simpl.
    destruct (live x && (start <=? counted_at x)); simpl length; lia.
Qed.

(** What holds of an account and its history after an event at [t0] or
    before: the window holds [t0], no job was counted after [t0], the job
    count is within the quota, and it is the jobs counted since the
    window start and still counted, plus what is left of the count the
    account started the window with. *)
Definition history_inv (cfg : Limits) (c0 t0 : Z) (st : Account * list Entry)
  : Prop :=
  unlimited (fst st) = false /\
  window_start (fst st) <= t0 /\
  t0 - window_start (fst st) <= QuotaPeriod cfg * day /\
  Forall (fun e => counted_at e <= t0) (snd st) /\
  job_count (fst st) <= QuotaJobs cfg /\
  exists c, 0 <= c <= c0 /\
    job_count (fst st) = c + liveSince (window_start (fst st)) (snd st).

Lemma Forall_counted_le (t0 t1 : Z) (log : list Entry) :
  t0 <= t1 ->
  Forall (fun e => counted_at e <= t0) log ->
  Forall (fun e => counted_at e <= t1) log.
Proof.
  intros Hle Hall. induction Hall as [|e log He _ IH]; constructor; [lia|exact IH].
Qed.

Lemma Forall_counted_lt (t0 t1 : Z) (log : list Entry) :
  t0 < t1 ->
  Forall (fun e => counted_at e <= t0) log ->
  Forall (fun e => counted_at e < t1) log.
Proof.
  intros Hlt Hall. induction Hall as [|e log He _ IH]; constructor; [lia|exact IH].
Qed.

Lemma reserve_history_inv (cfg : Limits) (c0 t0 now : Z)
    (st : Account * list Entry) :
  0 <= QuotaJobs cfg -> 0 <= QuotaPeriod cfg ->
  t0 <= now ->
  history_inv cfg c0 t0 st ->
  history_inv cfg c0 now (happen cfg st (EvReserve now)).
Proof.
  intros Hq HP Hnow (Hu & Hws & Hwin & Hall & Hjobs & c & Hc & Hcount).
  assert (Hday : 0 <= QuotaPeriod cfg * day) by (unfold day; lia).
  destruct st as [a log]. cbn [fst snd] in *.
  unfold happen. cbn [fst snd]. unfold Reserve. rewrite Hu. unfold expired.
  destruct (QuotaPeriod cfg * day <? now - window_start a) eqn:He; cbv zeta;
    [apply Z.ltb_lt in He; assert (Hold : liveSince now log = 0)
       by (apply liveSince_before, Forall_counted_lt with t0; [lia|exact Hall])
    |apply Z.ltb_ge in He];
    (destruct (QuotaJobs cfg <=? _) eqn:Hj;
     [|destruct (QuotaPages cfg <? _) eqn:Hp]);
    try apply Z.leb_gt in Hj;
    unfold history_inv; cbn [fst snd reset add_jobs unlimited window_start
                             job_count page_count] in *;
    (split; [exact Hu|]); (split; [lia|]); (split; [lia|]);
    (split; [try apply Forall_app; repeat split;
             try (apply Forall_counted_le with t0; [lia|exact Hall]);
             try (constructor; [simpl; lia|constructor])|]);
    (split; [lia|]).
  - exists 0. rewrite Hold. lia.
  - exists 0. rewrite Hold. lia.
  - exists 0. rewrite liveSince_snoc, Hold. simpl.
    rewrite Z.leb_refl. lia.
  - exists c. split; [lia|exact Hcount].
  - exists c. split; [lia|exact Hcount].
  - exists c. split; [lia|]. rewrite liveSince_snoc. simpl.
    assert (Hin : (window_start a <=? now) = true) by (apply Z.leb_le; lia).
    rewrite Hin. lia.
Qed.

Lemma happen_history_inv (cfg : Limits) (c0 t0 : Z) (st : Account * list Entry)
    (ev : Event) :
  0 <= QuotaJobs cfg -> 0 <= QuotaPeriod cfg ->
  history_inv cfg c0 t0 st ->
  nondecreasing (t0 :: reserveTimes [ev]) = true ->
  failsInWindow cfg st [ev] = true ->
  history_inv cfg c0 (match ev with EvReserve now => now | _ => t0 end)
    (happen cfg st ev).
Proof.
  intros Hq HP Hinv Hnd Hfails. destruct ev as [now|pages|j].
  - apply reserve_history_inv with t0; try assumption.
    simpl in Hnd. rewrite andb_true_r in Hnd. now apply Z.leb_le.
  - exact Hinv.
  - destruct Hinv as (Hu & Hws & Hwin & Hall & Hjobs & c & Hc & Hcount).
    simpl in Hfails. rewrite andb_true_r in Hfails.
    unfold happen. destruct (snd st !! j) as [e|] eqn:Hj;
      [|repeat split; eauto].
    destruct (live e) eqn:Hlive; [|repeat split; eauto].
    simpl in Hfails. apply Z.leb_le in Hfails.
    unfold history_inv. cbn [fst snd Rollback add_jobs unlimited window_start
                             job_count].
    split; [exact Hu|]. split; [exact Hws|]. split; [exact Hwin|].
    split.
    { apply Forall_insert; [exact Hall|]. simpl.
      exact (proj1 (Forall_lookup _ _) Hall j e Hj). }
    split; [lia|].
    exists c. split; [exact Hc|].
    rewrite (liveSince_fail _ _ j e Hj Hlive Hfails). lia.
Qed.

Lemma history_keeps_inv (cfg : Limits) (c0 : Z) (evs : list Event) :
  0 <= QuotaJobs cfg -> 0 <= QuotaPeriod cfg ->
  forall (t0 : Z) (st : Account * list Entry),
    history_inv cfg c0 t0 st ->
    nondecreasing (t0 :: reserveTimes evs) = true ->
    failsInWindow cfg st evs = true ->
    exists t1, history_inv cfg c0 t1 (history cfg st evs).
Proof.
  intros Hq HP. induction evs as [|ev evs IH]; intros t0 st Hinv Hnd Hfails.
  - now exists t0.
  - cbn [failsInWindow] in Hfails.
    apply andb_prop in Hfails. destruct Hfails as [Hhere Hrest].
    apply (IH (match ev with EvReserve now => now | _ => t0 end)
              (happen cfg st ev)).
    + apply happen_history_inv; try assumption.
      * destruct ev as [now|pages|j]; simpl; [|reflexivity|reflexivity].
        simpl in Hnd. destruct (reserveTimes evs);
          [now rewrite andb_true_r in *|].
        apply andb_prop in Hnd. destruct Hnd as [Hnd _].
        now rewrite Hnd.
      * cbn [failsInWindow]. now rewrite Hhere.
    + destruct ev as [now|pages|j]; simpl in *; try exact Hnd.
      destruct (reserveTimes evs); [reflexivity|].
      apply andb_prop in Hnd. tauto.
    + exact Hrest.
Qed.

(** What holds of an account and its history whatever the times of its
    reservations: no job was counted after the end of the window, the job
    count is within the quota, and the jobs counted since the window
    start and still counted are no more than the job count. *)
Definition window_inv (cfg : Limits) (st : Account * list Entry) : Prop :=
  unlimited (fst st) = false /\
  Forall (fun e => counted_at e <= window_start (fst st) + QuotaPeriod cfg * day)
    (snd st) /\
  job_count (fst st) <= QuotaJobs cfg /\
  liveSince (window_start (fst st)) (snd st) <= job_count (fst st).

Lemma reserve_window_inv (cfg : Limits) (now : Z) (st : Account * list Entry) :
  0 <= QuotaJobs cfg -> 0 <= QuotaPeriod cfg ->
  window_inv cfg st ->
  window_inv cfg (happen cfg st (EvReserve now)).
Proof.
  intros Hq HP (Hu & Hall & Hjobs & Hcount).
  assert (Hday : 0 <= QuotaPeriod cfg * day) by (unfold day; lia).
  destruct st as [a log]. cbn [fst snd] in *.
  unfold happen. cbn [fst snd]. unfold Reserve. rewrite Hu. unfold expired.
  destruct (QuotaPeriod cfg * day <? now - window_start a) eqn:He; cbv zeta;
    [apply Z.ltb_lt in He; assert (Hold : liveSince now log = 0)
       by (apply liveSince_before,
             Forall_counted_lt with (window_start a + QuotaPeriod cfg * day);
           [lia|exact Hall])
    |apply Z.ltb_ge in He];
    (destruct (QuotaJobs cfg <=? _) eqn:Hj;
     [|destruct (QuotaPages cfg <? _) eqn:Hp]);
    try apply Z.leb_gt in Hj;
    unfold window_inv; cbn [fst snd reset add_jobs unlimited window_start
                            job_count page_count] in *;
    (split; [exact Hu|]);
    (split; [try apply Forall_app; repeat split;
             try (apply Forall_counted_le
                    with (window_start a + QuotaPeriod cfg * day);
                  [lia|exact Hall]);
             try exact Hall;
             try (constructor; [simpl; lia|constructor])|]);
    (split; [lia|]);
    rewrite ?liveSince_snoc, ?Hold; cbn [live counted_at andb];
    try destruct (Z.leb_spec now now);
    try destruct (Z.leb_spec (window_start a) now); lia.
Qed.

Lemma happen_window_inv (cfg : Limits) (st : Account * list Entry) (ev : Event) :
  0 <= QuotaJobs cfg -> 0 <= QuotaPeriod cfg ->
  window_inv cfg st ->
  failsInWindow cfg st [ev] = true ->
  window_inv cfg (happen cfg st ev).
Proof.
  intros Hq HP Hinv Hfails. destruct ev as [now|pages|j].
  - now apply reserve_window_inv.
  - exact Hinv.
  - destruct Hinv as (Hu & Hall & Hjobs & Hcount).
    cbn [failsInWindow] in Hfails. rewrite andb_true_r in Hfails.
    unfold happen. destruct (snd st !! j) as [e|] eqn:Hj;
      [|repeat split; assumption].
    destruct (live e) eqn:Hlive; [|repeat split; assumption].
    simpl in Hfails. apply Z.leb_le in Hfails.
    unfold window_inv. cbn [fst snd Rollback add_jobs unlimited window_start
                            job_count].
    split; [exact Hu|]. split.
    { apply Forall_insert; [exact Hall|]. simpl.
      exact (proj1 (Forall_lookup _ _) Hall j e Hj). }
    split; [lia|].
    rewrite (liveSince_fail _ _ j e Hj Hlive Hfails). lia.
Qed.

Lemma history_window_inv (cfg : Limits) (evs : list Event) :
  0 <= QuotaJobs cfg -> 0 <= QuotaPeriod cfg ->
  forall st : Account * list Entry,
    window_inv cfg st ->
    failsInWindow cfg st evs = true ->
    window_inv cfg (history cfg st evs).
Proof.
  intros Hq HP. induction evs as [|ev evs IH]; intros st Hinv Hfails.
  - exact Hinv.
  - cbn [failsInWindow] in Hfails.
    apply andb_prop in Hfails. destruct Hfails as [Hhere Hrest].
    apply (IH (happen cfg st ev)); [|exact Hrest].
    apply happen_window_inv; try assumption.
    cbn [failsInWindow]. now rewrite Hhere.
Qed.

(** C1, as the tracker has it: the job count of an account that is not
    unlimited never exceeds a non-negative [QuotaJobs] once it is within
    it, whatever reservations, commits and rollbacks follow and whenever
    they come; a reservation that finds the window start more than
    [QuotaPeriod] days back sets the window start to the present and
    counts from zero again, pages and jobs; and with a non-negative
    [QuotaPeriod] and a job count that starts at zero or above, over
    every history of reservations, commits, and failures of jobs counted
    in the window the account is in by then, the jobs counted since the
    window start and still counted are no more than the job count, so
    never more than [QuotaJobs]; they are the job count when it started
    at zero and the reservations come in the order of time from the
    window start on. (Windows that trail an arbitrary instant are not
    bounded this way, nor are histories in which a job counted before a
    reset fails after it.) *)
Theorem job_count_never_exceeds_QuotaJobs (cfg : Limits) (a : Account)
    (ops : list Op) :
  unlimited a = false ->
  0 <= QuotaJobs cfg ->
  job_count a <= QuotaJobs cfg ->
  let b := run cfg a ops in
  job_count b <= QuotaJobs cfg /\
  (forall now, expired cfg now b = true ->
     let c := fst (Reserve cfg now b) in
     window_start c = now /\ page_count c = 0 /\
     job_count c = (if (QuotaJobs cfg <=? 0) || (QuotaPages cfg <? 0) then 0 else 1)) /\
  (forall evs,
     0 <= QuotaPeriod cfg -> 0 <= job_count a ->
     failsInWindow cfg (a, []) evs = true ->
     let w := fst (history cfg (a, []) evs) in
     let log := snd (history cfg (a, []) evs) in
     liveSince (window_start w) log <= job_count w /\
     job_count w <= QuotaJobs cfg /\
     (job_count a = 0 ->
      nondecreasing (window_start a :: reserveTimes evs) = true ->
      liveSince (window_start w) log = job_count w)).
Proof.
  intros Hu Hq Hle b.
  destruct (run_within_quota cfg ops a Hu Hq Hle) as [Hub Hb].
  split; [exact Hb|]. split.
  - intros now He c. subst c. rewrite (Reserve_expired cfg now b Hub He).
    destruct (QuotaJobs cfg <=? 0); [simpl; auto|].
    destruct (QuotaPages cfg <? 0); simpl; auto.
  - intros evs HP Hzero Hfails w log.
    destruct (history_window_inv cfg evs Hq HP (a, [])) as (_ & _ & Hjobs & Hcount).
    { unfold window_inv. cbn [fst snd].
      split; [exact Hu|]. split; [constructor|]. split; [exact Hle|].
      rewrite liveSince_nil. exact Hzero. }
    { exact Hfails. }
    fold w in Hjobs, Hcount. fold log in Hcount.
    split; [exact Hcount|]. split; [exact Hjobs|].
    intros Hstart Hnd.
    destruct (history_keeps_inv cfg (job_count a) evs Hq HP
                (window_start a) (a, [])) as [t1 Hinv]; try assumption.
    { unfold history_inv. cbn [fst snd].
      split; [exact Hu|]. split; [lia|]. split; [unfold day; lia|].
      split; [constructor|]. split; [exact Hle|].
      exists (job_count a). rewrite liveSince_nil. lia. }
    destruct Hinv as (_ & _ & _ & _ & _ & c & Hc & Hsum).
    fold w in Hsum. fold log in Hsum. lia.
Qed.

Definition twoPerDay : Limits :=
  {| QuotaJobs := 2; QuotaPages := 100; QuotaPeriod := 1 |}.

Definition fresh : Account :=
  {| unlimited := false; window_start := 0; job_count := 0; page_count := 0 |}.

Definition onePerDay : Limits :=
  {| QuotaJobs := 1; QuotaPages := 100; QuotaPeriod := 1 |}.

Definition oneBackwards : Limits :=
  {| QuotaJobs := 1; QuotaPages := 100; QuotaPeriod := -1 |}.

Lemma job_count_never_exceeds_QuotaJobs_witness :
  let ops := [OpReserve 1000000; OpReserve 1000001; OpReserve 1000002;
              OpRollback; OpReserve 1000003; OpCommit 500;
              OpReserve 2000000] in
  let evs := [EvReserve 1000000; EvReserve 1086400; EvFail 1%nat;
              EvReserve 1086400; EvCommit 40; EvReserve 1086401;
              EvReserve 1086401; EvFail 3%nat; EvReserve 1086500] in
  unlimited fresh = false /\
  job_count fresh <= QuotaJobs twoPerDay /\
  job_count (run twoPerDay fresh ops) <= QuotaJobs twoPerDay /\
  failsInWindow twoPerDay (fresh, []) evs = true /\
  liveSince (window_start (fst (history twoPerDay (fresh, []) evs)))
    (snd (history twoPerDay (fresh, []) evs))
  = job_count (fst (history twoPerDay (fresh, []) evs)) /\
  job_count (fst (history twoPerDay (fresh, []) evs)) = 2.
Proof.
  assert (Hq : 0 <= QuotaJobs twoPerDay) by (simpl; lia).
  assert (Hle : job_count fresh <= QuotaJobs twoPerDay) by (simpl; lia).
  split; [reflexivity|]. split; [exact Hle|].
  destruct (job_count_never_exceeds_QuotaJobs twoPerDay fresh
              [OpReserve 1000000; OpReserve 1000001; OpReserve 1000002;
               OpRollback; OpReserve 1000003; OpCommit 500;
               OpReserve 2000000] eq_refl Hq Hle) as (Hbound & _ & Hwindow).
  split; [exact Hbound|]. split; [reflexivity|]. split; [|reflexivity].
  apply (Hwindow [EvReserve 1000000; EvReserve 1086400; EvFail 1%nat;
                  EvReserve 1086400; EvCommit 40; EvReserve 1086401;
                  EvReserve 1086401; EvFail 3%nat; EvReserve 1086500]);
    [simpl; lia | simpl; lia | reflexivity | reflexivity | reflexivity].
Defined.

(** C1 in the specification's words fails. Two jobs counted at the very
    end of one window and two at the start of the next lie within one
    second, and three of the four within the day that trails the last.
    Nor does the window that starts at the window start keep the bound
    in every history: with one job a day, a job counted before a reset
    that fails after it takes the count of the job counted since off the
    counter, and a third job is counted beside it; with a period below
    zero every reservation resets, so three jobs asked at once are all
    counted; an account whose job count starts below zero is granted two
    jobs in one window; and a quota below zero is exceeded by an account
    with no job at all. *)
Lemma quota_windows_hold_more_than_QuotaJobs :
  ~ trailingWindowBound /\
  (let h := history onePerDay (fresh, [])
              [EvReserve 1000000; EvReserve 1086401; EvFail 0%nat;
               EvReserve 1086402] in
   liveSince (window_start (fst h)) (snd h) = 2 /\
   job_count (fst h) = 1 /\ QuotaJobs onePerDay = 1) /\
  (let h := history oneBackwards
              ({| unlimited := false; window_start := 5;
                  job_count := 0; page_count := 0 |}, [])
              [EvReserve 5; EvReserve 5; EvReserve 5] in
   liveSince (window_start (fst h)) (snd h) = 3 /\
   QuotaJobs oneBackwards = 1) /\
  (let h := history onePerDay
              ({| unlimited := false; window_start := 1000000;
                  job_count := -1; page_count := 0 |}, [])
              [EvReserve 1000000; EvReserve 1000001] in
   liveSince (window_start (fst h)) (snd h) = 2 /\
   QuotaJobs onePerDay = 1) /\
  (let cfg := {| QuotaJobs := -1; QuotaPages := 100; QuotaPeriod := 1 |} in
   QuotaJobs cfg < job_count (run cfg fresh [])).
Proof.
  split; [|repeat split; vm_compute; reflexivity].
  intros Hbound.
  specialize (Hbound twoPerDay fresh
                [1000000; 1086400; 1086401; 1086401] 1086401
                eq_refl).
  assert (Hthree :
    countedWithin twoPerDay 1086401
      (countedAt twoPerDay fresh [1000000; 1086400; 1086401; 1086401]) = 3)
    by reflexivity.
  rewrite Hthree in Hbound. simpl in Hbound.
  assert (3 <= 2) by (apply Hbound; (lia || reflexivity)).
  lia.
Qed.

(** The scenario of the specification: [QuotaJobs = 2], a period of one
    day; of three jobs in quick succession the first two are counted and
    the third fails, and after the window has rolled over a fourth is
    counted. *)
Example three_jobs_then_rollover :
  let step := fun (a : Account * list Outcome) now =>
    let r := Reserve twoPerDay now (fst a) in (fst r, snd a ++ [snd r]) in
  snd (fold_left step [1000000; 1000001; 1000002; 1086401] (fresh, []))
  = [Reserved (Granted true); Reserved (Granted true);
     Failed (QuotaExceeded JobBased); Reserved (Granted true)].
Proof. reflexivity. Qed.

(** ** Reservation, failure and rollback *)

Lemma add_jobs_undo (a : Account) : add_jobs (-1) (add_jobs 1 a) = a.
Proof. destruct a as [u w j p]. unfold add_jobs. simpl. f_equal. lia. Qed.

(** A granted reservation of an account that is not unlimited counted one
    job, on the account as the expiry test left it. *)
Lemma Reserve_granted (cfg : Limits) (now : Z) (a a1 : Account) (h : Handle) :
  unlimited a = false ->
  Reserve cfg now a = (a1, Reserved h) ->
  h = Granted true /\
  a1 = add_jobs 1 (if expired cfg now a then reset now a else a).
Proof.
  intros Hu. unfold Reserve. rewrite Hu. cbv zeta.
  destruct (QuotaJobs cfg <=? _); [discriminate|].
  destruct (QuotaPages cfg <? _); [discriminate|].
  intros Heq. injection Heq as <- <-. auto.
Qed.

(** C5, as the tracker has it: for an account that is not unlimited, a
    granted reservation followed by a rendering failure ends the job with
    [RenderError] and without a document, and takes back the one job the
    reservation counted: the account is as it was before the reservation
    when its window had not expired, and as the reset left it (window
    start at the present, no jobs, no pages) when it had. *)
Theorem reserve_then_render_failure (cfg : Limits) (now : Z)
    (a a1 : Account) (h : Handle) :
  unlimited a = false ->
  Reserve cfg now a = (a1, Reserved h) ->
  processJob cfg now RenderFailed a = (Rollback h a1, inr RenderError) /\
  job_count (Rollback h a1) = job_count a1 - 1 /\
  (expired cfg now a = false -> Rollback h a1 = a) /\
  (expired cfg now a = true -> Rollback h a1 = reset now a).
Proof.
  intros Hu Hres.
  destruct (Reserve_granted cfg now a a1 h Hu Hres) as [-> ->].
  split; [|split; [|split]].
  - unfold processJob. rewrite Hres. reflexivity.
  - reflexivity.
  - intros He. rewrite He. apply add_jobs_undo.
  - intros He. rewrite He. apply add_jobs_undo.
Qed.

Definition tenPerDay : Limits :=
  {| QuotaJobs := 10; QuotaPages := 100; QuotaPeriod := 1 |}.

Definition midWindow : Account :=
  {| unlimited := false; window_start := 1000000;
     job_count := 3; page_count := 10 |}.

Lemma reserve_then_render_failure_witness :
  unlimited midWindow = false /\
  Reserve tenPerDay 1000060 midWindow
    = (add_jobs 1 midWindow, Reserved (Granted true)) /\
  processJob tenPerDay 1000060 RenderFailed midWindow
    = (midWindow, inr RenderError).
Proof.
  split; [reflexivity|]. split; [reflexivity|].
  destruct (reserve_then_render_failure tenPerDay 1000060 midWindow
              (add_jobs 1 midWindow) (Granted true) eq_refl eq_refl)
    as (Hjob & _ & Hsame & _).
  rewrite Hjob. rewrite (Hsame eq_refl). reflexivity.
Defined.

(** C5 in the specification's words fails: when the reservation finds the window expired,
    the three jobs and ten pages counted before it are gone after the
    rollback. *)
Lemma rollback_after_expiry_is_not_a_no_op :
  let r := processJob tenPerDay 2000000 RenderFailed midWindow in
  unlimited midWindow = false /\
  snd r = inr RenderError /\
  job_count midWindow = 3 /\ job_count (fst r) = 0 /\
  page_count midWindow = 10 /\ page_count (fst r) = 0 /\
  job_count (fst r) <> job_count midWindow.
Proof. simpl. repeat split; try reflexivity. discriminate. Qed.

(** C6: for an account that is not unlimited, whose window has not
    expired and whose job count has reached [QuotaJobs], [Reserve] fails
    with [QuotaExceeded] and leaves the account, so its window start, job
    count and page count, as it was. *)
Theorem Reserve_at_job_quota (cfg : Limits) (now : Z) (a : Account) :
  unlimited a = false ->
  expired cfg now a = false ->
  QuotaJobs cfg <= job_count a ->
  Reserve cfg now a = (a, Failed (QuotaExceeded JobBased)) /\
  window_start (fst (Reserve cfg now a)) = window_start a /\
  job_count (fst (Reserve cfg now a)) = job_count a /\
  page_count (fst (Reserve cfg now a)) = page_count a.
Proof.
  intros Hu He Hfull.
  assert (Hres : Reserve cfg now a = (a, Failed (QuotaExceeded JobBased))).
  { unfold Reserve. rewrite Hu, He. cbv zeta.
    apply Z.leb_le in Hfull. now rewrite Hfull. }
  rewrite Hres. auto.
Qed.

Definition atQuota : Account :=
  {| unlimited := false; window_start := 1000000;
     job_count := 2; page_count := 7 |}.

Lemma Reserve_at_job_quota_witness :
  unlimited atQuota = false /\
  expired twoPerDay 1000500 atQuota = false /\
  QuotaJobs twoPerDay <= job_count atQuota /\
  Reserve twoPerDay 1000500 atQuota = (atQuota, Failed (QuotaExceeded JobBased)).
Proof.
  split; [reflexivity|]. split; [reflexivity|]. split; [simpl; lia|].
  refine (proj1 (Reserve_at_job_quota twoPerDay 1000500 atQuota eq_refl eq_refl _)).
  simpl. lia.
Defined.

End Quota.

(* ===================================================================== *)
(** * The Render Dispatcher *)
(* ===================================================================== *)

Module Dispatcher.

(** Where a connection whose job was accepted for rendering stands. *)
Inductive Phase : Type :=
| Waiting
| Rendering
| Done.

(** The pool: the number of worker slots taken, and the connections in
    the order they were accepted. *)
Record Pool : Type := {
  busy : nat;
  conns : list Phase
}.

(** What can happen next, whichever connection the scheduler picks: a
    connection has a job accepted for rendering, connection [i] asks for
    a worker slot, the rendering of connection [i] ends (with a document
    or with a failure). *)
Inductive Event : Type :=
| Accept
| Acquire (i : nat)
| Release (i : nat).

(** Modelled from the spec: the Render Dispatcher (sections 4.6, 5 and
    9), whose source is not embedded here: "a fixed-size pool of
    [ConcurrentPrintJobs] workers", as a "bounded channel/queue of fixed
    capacity [ConcurrentPrintJobs]; acquisition blocks the caller task,
    release happens on completion (success or failure)". [n] is
    [ConcurrentPrintJobs]. An acquisition that finds every slot taken
    changes nothing: the connection goes on waiting. *)
Definition fire (n : nat) (p : Pool) (e : Event) : Pool :=
  match e with
  | Accept => {| busy := busy p; conns := conns p ++ [Waiting] |}
  | Acquire i =>
      match conns p !! i with
      | Some Waiting =>
          if Nat.ltb (busy p) n
          then {| busy := S (busy p); conns := <[i:=Rendering]> (conns p) |}
          else p
      | _ => p
      end
  | Release i =>
      match conns p !! i with
      | Some Rendering =>
          {| busy := Nat.pred (busy p); conns := <[i:=Done]> (conns p) |}
      | _ => p
      end
  end.

Definition idle : Pool := {| busy := 0; conns := [] |}.

(** The pool after a schedule of events, from the start of the server. *)
Definition schedule (n : nat) (es : list Event) : Pool :=
  fold_left (fire n) es idle.

(** The number of connections whose job is being rendered. *)
Fixpoint rendering (l : list Phase) : nat :=
  match l with
  | [] => 0
  | Rendering :: r => S (rendering r)
  | _ :: r => rendering r
  end.

(** ** Counting the rendering connections *)

Lemma rendering_app (l r : list Phase) :
  rendering (l ++ r) = (rendering l + rendering r)%nat.
Proof.
  induction l as [|ph l IH]; [reflexivity|].
  destruct ph; simpl; rewrite IH; reflexivity.
Qed.

Lemma rendering_start (l : list Phase) (i : nat) :
  l !! i = Some Waiting ->
  rendering (<[i:=Rendering]> l) = S (rendering l).
Proof.
  revert i. induction l as [|ph l IH]; intros [|i] Hi; try discriminate.
  - simpl in Hi. injection Hi as ->. reflexivity.
  - simpl in Hi. destruct ph; simpl; rewrite (IH i Hi); reflexivity.
Qed.

Lemma rendering_end (l : list Phase) (i : nat) :
  l !! i = Some Rendering ->
  S (rendering (<[i:=Done]> l)) = rendering l.
Proof.
  revert i. induction l as [|ph l IH]; intros [|i] Hi; try discriminate.
  - simpl in Hi. injection Hi as ->. reflexivity.
  - simpl in Hi. destruct ph; simpl; rewrite <- (IH i Hi); reflexivity.
Qed.

Lemma rendering_some (l : list Phase) :
  (0 < rendering l)%nat -> exists j, l !! j = Some Rendering.
Proof.
  induction l as [|ph l IH]; simpl; [lia|].
  destruct ph; try (intros H; destruct (IH H) as [j Hj]; now exists (S j)).
  intros _. now exists 0%nat.
Qed.

(** The slots taken are the connections rendering, and they are within
    the capacity. *)
Definition pool_inv (n : nat) (p : Pool) : Prop :=
  rendering (conns p) = busy p /\ (busy p <= n)%nat.

Lemma fire_inv (n : nat) (p : Pool) (e : Event) :
  pool_inv n p -> pool_inv n (fire n p e).
Proof.
  intros [Hcount Hcap]. destruct e as [|i|i]; simpl.
  - split; [|exact Hcap]. simpl. rewrite rendering_app. simpl. lia.
  - destruct (conns p !! i) as [[| |]|] eqn:Hi; try (now split).
    destruct (Nat.ltb (busy p) n) eqn:Hfree; [|now split].
    apply Nat.ltb_lt in Hfree. split; simpl; [|lia].
    rewrite (rendering_start _ _ Hi). lia.
  - destruct (conns p !! i) as [[| |]|] eqn:Hi; try (now split).
    pose proof (rendering_end _ _ Hi) as Hend.
    split; simpl; lia.
Qed.

Lemma schedule_inv (n : nat) (es : list Event) : pool_inv n (schedule n es).
Proof.
  unfold schedule.
  assert (Hgen : forall p, pool_inv n p -> pool_inv n (fold_left (fire n) es p)).
  { induction es as [|e es IH]; intros p Hp; [exact Hp|].
    simpl. apply IH, fire_inv, Hp. }
  apply Hgen. split; simpl; lia.
Qed.

(** A waiting connection is still there after any event: waiting, or
    rendering. *)
Lemma fire_keeps_waiting (n : nat) (p : Pool) (e : Event) (i : nat) :
  conns p !! i = Some Waiting ->
  conns (fire n p e) !! i = Some Waiting \/
  conns (fire n p e) !! i = Some Rendering.
Proof.
  intros Hi. destruct e as [|j|j]; simpl.
  - left. apply lookup_app_l_Some. exact Hi.
  - destruct (conns p !! j) as [[| |]|] eqn:Hj; auto.
    destruct (Nat.ltb (busy p) n); auto. simpl.
    destruct (Nat.eq_dec j i) as [->|Hne].
    + right. apply list_lookup_insert_eq. now apply lookup_lt_Some with Waiting.
    + left. rewrite list_lookup_insert_ne by exact Hne. exact Hi.
  - destruct (conns p !! j) as [[| |]|] eqn:Hj; auto. simpl.
    destruct (Nat.eq_dec j i) as [->|Hne]; [congruence|].
    left. rewrite list_lookup_insert_ne by exact Hne. exact Hi.
Qed.

(** C7: after any schedule of the events of any number of connections,
    the connections rendering are exactly the worker slots taken and at
    most [ConcurrentPrintJobs]. A connection waiting for a slot is never
    dropped by an event: it waits on or renders; it gets a slot as soon
    as it asks while one is free; and while every slot of a non-empty
    pool is taken, some rendering is under way whose end frees one. *)
Theorem rendering_at_most_ConcurrentPrintJobs (n : nat) (es : list Event) :
  let p := schedule n es in
  (rendering (conns p) = busy p /\ (rendering (conns p) <= n)%nat) /\
  (forall i e, conns p !! i = Some Waiting ->
     conns (fire n p e) !! i = Some Waiting \/
     conns (fire n p e) !! i = Some Rendering) /\
  (forall i, conns p !! i = Some Waiting -> (busy p < n)%nat ->
     conns (fire n p (Acquire i)) !! i = Some Rendering) /\
  (forall i, conns p !! i = Some Waiting -> busy p = n -> (0 < n)%nat ->
     fire n p (Acquire i) = p /\
     exists j, conns p !! j = Some Rendering /\
               (busy (fire n p (Release j)) < n)%nat).
Proof.
  intros p. destruct (schedule_inv n es) as [Hcount Hcap]. fold p in Hcount, Hcap.
  split; [split; [exact Hcount|lia]|].
  split; [intros i e; apply fire_keeps_waiting|].
  split.
  - intros i Hi Hfree. simpl. rewrite Hi.
    apply Nat.ltb_lt in Hfree. rewrite Hfree. simpl.
    apply list_lookup_insert_eq. now apply lookup_lt_Some with Waiting.
  - intros i Hi Hfull Hpos. split.
    + simpl. rewrite Hi.
      assert (Hno : Nat.ltb (busy p) n = false) by (apply Nat.ltb_ge; lia).
      now rewrite Hno.
    + destruct (rendering_some (conns p)) as [j Hj]; [lia|].
      exists j. split; [exact Hj|]. simpl. rewrite Hj. simpl. lia.
Qed.

(** Two workers and three connections: the third waits until the first
    is done, and is then served. *)
Example three_connections_two_workers :
  let es := [Accept; Accept; Accept; Acquire 0; Acquire 1; Acquire 2]%nat in
  schedule 2 es = {| busy := 2; conns := [Rendering; Rendering; Waiting] |} /\
  schedule 2 (es ++ [Release 0; Acquire 2]%nat)
  = {| busy := 2; conns := [Done; Rendering; Rendering] |}.
Proof. split; reflexivity. Qed.

End Dispatcher.
